(** * Crater detection script (main.py): a shallow embedding and its properties

    The script walks a dataset directory, runs an OpenCV edge/contour/ellipse
    pipeline on every grayscale image and writes one CSV row per fitted
    ellipse (or one sentinel row when nothing was found).

    What is embedded here, function by function:
    - [collect_images]      ([os.walk] and the extension test);
    - [image_id_from_path]  (pathlib: [relative_to], [parts], [stem]);
    - [detect_craters]      (the contour loop around [cv2.fitEllipse]);
    - [main]: the header and the loop that turns detections into CSV rows.

    OpenCV itself is a collaborator, not part of the script: its entry points
    are the fields of the record [cv2], and every definition takes the record
    as an argument.  Console output ([print]) is not modelled. *)

From Stdlib Require Import ZArith QArith Qabs List String Ascii Bool Lia.
From Stdlib Require Import DecimalString.
Import ListNotations.

Local Open Scope Z_scope.

(** ** Python values *)

(** *** Exceptions and fallible results *)

Inductive pyexn : Type :=
| ValueError   (* Path.relative_to: not a sub-path *)
| IndexError   (* tuple index out of range *)
| CvError.     (* cv2.error *)

Inductive result (A : Type) : Type :=
| Ok (a : A)
| Raise (e : pyexn).
Arguments Ok {A} a.
Arguments Raise {A} e.

Definition bind {A B : Type} (r : result A) (k : A -> result B) : result B :=
  match r with
  | Ok a => k a
  | Raise e => Raise e
  end.

Notation "'do' x <- e ; k" := (bind e (fun x => k))
  (at level 10, x name, e at level 100, k at level 200).

(** *** Floats

    A Python [float] is an IEEE-754 binary64.  The script only compares
    floats with the literal [10] and with each other, halves them and rounds
    them to two decimals, so a float is represented by the number it denotes:
    a rational for a finite float, or one of the three special values.  Every
    finite binary64 is a rational, so a statement proved for all [Finite q]
    covers all finite floats.  Halving is exact in binary64 except on
    subnormals, which are far below the size filter; the sign of zero is not
    tracked. *)

Inductive pyfloat : Type :=
| Finite (q : Q)
| PosInf
| NegInf
| NaN.

Definition Qltb (x y : Q) : bool := Qnum x * QDen y <? Qnum y * QDen x.
Definition Qleb (x y : Q) : bool := Qnum x * QDen y <=? Qnum y * QDen x.

(** [x < y] on floats: false as soon as one side is NaN. *)
Definition flt_lt (x y : pyfloat) : bool :=
  match x, y with
  | NaN, _ => false
  | _, NaN => false
  | Finite a, Finite b => Qltb a b
  | Finite _, PosInf => true
  | Finite _, NegInf => false
  | PosInf, _ => false
  | NegInf, NegInf => false
  | NegInf, _ => true
  end.

(** [x <= y] on floats. *)
Definition flt_le (x y : pyfloat) : bool :=
  match x, y with
  | NaN, _ => false
  | _, NaN => false
  | Finite a, Finite b => Qleb a b
  | Finite _, PosInf => true
  | Finite _, NegInf => false
  | PosInf, PosInf => true
  | PosInf, _ => false
  | NegInf, _ => true
  end.

Definition flt_gt (x y : pyfloat) : bool := flt_lt y x.
Definition flt_ge (x y : pyfloat) : bool := flt_le y x.

Definition is_nan (x : pyfloat) : bool :=
  match x with NaN => true | _ => false end.

(** An [int] literal used where a float is expected. *)
Definition of_int (z : Z) : pyfloat := Finite (inject_Z z).

(** [x / 2]. *)
Definition flt_half (x : pyfloat) : pyfloat :=
  match x with
  | Finite q => Finite (q / 2)
  | PosInf => PosInf
  | NegInf => NegInf
  | NaN => NaN
  end.

(** The integer nearest to [q], ties going to the even one. *)
Definition round_half_even (q : Q) : Z :=
  let n := Qnum q in
  let d := QDen q in
  let f := n / d in
  let r := n mod d in
  if 2 * r <? d then f
  else if d <? 2 * r then f + 1
  else if Z.even f then f else f + 1.

(** The decimal with two places nearest to [q]. *)
Definition round2 (q : Q) : Q := round_half_even (q * 100) # 100.

(** *** binary64

    A finite binary64 is a multiple of [2^-1074] with a significand of at
    most 53 bits.  [b64 q] is the binary64 nearest to the rational [q], ties
    going to the even significand: [q] is counted in units of [2^-1074],
    the units are rounded to a multiple of [2^s], where [s] is what the
    integer part of the count has in bits beyond 53 (none for a subnormal).
    The largest finite binary64 is not modelled: no result of the script
    comes near it. *)
Definition b64_scale : Z := 2 ^ 1074.

Definition b64_shift (A d : Z) : Z := Z.max 0 (Z.log2 (A / d) - 52).

(** For [0 <= q]: the binary64 nearest to [q], in units of [2^-1074]. *)
Definition b64_units (q : Q) : Z :=
  let A := Qnum q * b64_scale in
  let d := QDen q in
  let s := b64_shift A d in
  round_half_even (A # Z.to_pos (d * 2 ^ s)) * 2 ^ s.

Definition b64 (q : Q) : Q :=
  if Qnum q <? 0 then - (b64_units (- q) # Z.to_pos b64_scale)
  else b64_units q # Z.to_pos b64_scale.

(** [round(x, 2)]: the decimal with two places nearest to [x], half to
    even, then the binary64 nearest to that decimal; infinities and NaN are
    returned as they are (with [ndigits] given, [round] does not raise). *)
Definition py_round2 (x : pyfloat) : pyfloat :=
  match x with
  | Finite q => Finite (b64 (round2 q))
  | PosInf => PosInf
  | NegInf => NegInf
  | NaN => NaN
  end.

(** *** Numbers as text

    [repr] of a finite float: the shortest string of decimal digits that
    reads back as the same binary64 (the nearest to it when two of that
    length do), written with a point, or with an exponent when the point
    would fall more than 16 digits to the right of the first digit or 4 or
    more to its left. *)
Definition pow10 (k : Z) : Q :=
  if 0 <=? k then 10 ^ k # 1 else 1 # Z.to_pos (10 ^ (- k)).

(** The [p] with [10^p <= n/d < 10^(p+1)], for [0 < n/d]. *)
Fixpoint log10_search (fuel : nat) (n d p : Z) : Z :=
  match fuel with
  | O => p
  | S fuel' =>
      if n <? d then log10_search fuel' (n * 10) d (p - 1)
      else if 10 * d <=? n then log10_search fuel' n (d * 10) (p + 1)
      else p
  end.

Definition floor_log10 (a : Q) : Z := log10_search 700 (Qnum a) (QDen a) 0.

(** Does the decimal [s * 10^k] read back as [a]? *)
Definition roundtrips (a : Q) (s k : Z) : bool :=
  Qeq_bool (b64 (inject_Z s * pow10 k)) a.

(** Among the two multiples of [10^k] around [a], one that reads back as
    [a]: the nearer one when both do. *)
Definition candidate (a : Q) (k : Z) : option Z :=
  let t := (a * pow10 (- k))%Q in
  let lo := Qnum t / QDen t in
  let hi := lo + 1 in
  match roundtrips a lo k, roundtrips a hi k with
  | true, true => Some (round_half_even t)
  | true, false => Some lo
  | false, true => Some hi
  | false, false => None
  end.

(** The digits [s] and exponent [k] of the shortest decimal [s * 10^k] that
    reads back as [a], trying 1, 2, ... digits; 17 digits always do. *)
Fixpoint shortest (fuel : nat) (a : Q) (p ndig : Z) : Z * Z :=
  let k := p - ndig + 1 in
  match fuel with
  | O => (round_half_even (a * pow10 (- k)), k)
  | S fuel' =>
      match candidate a k with
      | Some s => (s, k)
      | None => shortest fuel' a p (ndig + 1)
      end
  end.

Fixpoint strip_zeros (fuel : nat) (s k : Z) : Z * Z :=
  match fuel with
  | O => (s, k)
  | S fuel' =>
      if (s mod 10 =? 0) && negb (s =? 0)
      then strip_zeros fuel' (s / 10) (k + 1)
      else (s, k)
  end.

(** The decimal digits of a natural number. *)
Definition str_nat (n : Z) : string :=
  NilZero.string_of_uint (N.to_uint (Z.to_N n)).

(** [str(z)] for an [int]. *)
Definition str_int (z : Z) : string :=
  if z <? 0 then String "-" (str_nat (- z)) else str_nat z.

Fixpoint zeros (n : nat) : string :=
  match n with
  | O => EmptyString
  | S n' => String "0" (zeros n')
  end.

(** The exponent part: a sign and at least two digits. *)
Definition str_exponent (e : Z) : string :=
  let sign := if e <? 0 then "-"%string else "+"%string in
  let pad := if Z.abs e <? 10 then "0"%string else ""%string in
  (sign ++ pad ++ str_nat (Z.abs e))%string.

Definition repr_positive (a : Q) : string :=
  let p := floor_log10 a in
  let '(s0, k0) := shortest 16 a p 1 in
  let '(s, k) := strip_zeros 20 s0 k0 in
  let digits := str_nat s in
  let L := Z.of_nat (String.length digits) in
  let decpt := L + k in
  let frac :=
    if 1 <? L then ("." ++ substring 1 (Z.to_nat (L - 1)) digits)%string
    else ""%string in
  if (decpt <=? -4) || (16 <? decpt) then
    (substring 0 1 digits ++ frac ++ "e" ++ str_exponent (decpt - 1))%string
  else if decpt <=? 0 then
    ("0." ++ zeros (Z.to_nat (- decpt)) ++ digits)%string
  else if decpt <? L then
    (substring 0 (Z.to_nat decpt) digits ++ "."
     ++ substring (Z.to_nat decpt) (Z.to_nat (L - decpt)) digits)%string
  else
    (digits ++ zeros (Z.to_nat (decpt - L)) ++ ".0")%string.

(** [repr(x)] for a [float].  A rational that is not itself a binary64
    stands for the binary64 nearest to it.  Zero is written [0.0]: the sign
    a binary64 zero carries is not tracked. *)
Definition py_repr (x : pyfloat) : string :=
  match x with
  | Finite q =>
      let a := b64 q in
      if Qnum a =? 0 then "0.0"%string
      else if Qnum a <? 0 then String "-" (repr_positive (- a))
      else repr_positive a
  | PosInf => "inf"%string
  | NegInf => "-inf"%string
  | NaN => "nan"%string
  end.

(** ** Dataset utilities *)

(** A [Path] is the tuple of its components ([Path.parts]). *)
Definition Path : Type := list string.

(** [Path.name]: the final component, the empty string when there is none. *)
Definition name (p : Path) : string := last p EmptyString.

(** [str.rfind(c)]: index of the last occurrence of [c], -1 when absent. *)
Fixpoint rfind_from (c : ascii) (s : string) (i found : Z) : Z :=
  match s with
  | EmptyString => found
  | String a s' => rfind_from c s' (i + 1) (if Ascii.eqb a c then i else found)
  end.

Definition rfind (c : ascii) (s : string) : Z := rfind_from c s 0 (-1).

Definition len (s : string) : Z := Z.of_nat (String.length s).

(** [Path.stem] (pathlib up to Python 3.13):
<<
    name = self.name
    i = name.rfind('.')
    if 0 < i < len(name) - 1: return name[:i]
    else: return name
>> *)
Definition stem_of_name (nm : string) : string :=
  let i := rfind "."%char nm in
  if (0 <? i) && (i <? len nm - 1) then substring 0 (Z.to_nat i) nm else nm.

Definition stem (p : Path) : string := stem_of_name (name p).

(** [p.relative_to(root)]: the components of [p] after those of [root];
    [ValueError] when [root] is not a prefix of [p]. *)
Fixpoint relative_to (p root : Path) {struct root} : result Path :=
  match root with
  | [] => Ok p
  | r :: root' =>
      match p with
      | [] => Raise ValueError
      | x :: p' => if String.eqb x r then relative_to p' root' else Raise ValueError
      end
  end.

(** [t[i]] on a tuple, for a non-negative literal index. *)
Definition index {A : Type} (t : list A) (i : nat) : result A :=
  match nth_error t i with
  | Some a => Ok a
  | None => Raise IndexError
  end.

(**
<<
def image_id_from_path(img_path, dataset_root):
    rel = img_path.relative_to(dataset_root)
    parts = rel.parts
    image_name = img_path.stem
    return f"{parts[0]}/{parts[1]}/{image_name}"
>> *)
Definition image_id_from_path (img_path dataset_root : Path) : result string :=
  do rel <- relative_to img_path dataset_root;
  let parts := rel in
  let image_name := stem img_path in
  do p0 <- index parts 0;
  do p1 <- index parts 1;
  Ok (p0 ++ "/" ++ p1 ++ "/" ++ image_name)%string.

(** The ['/']-separated segments of a string ([str.split('/')]). *)
Fixpoint split_on (c : ascii) (s : string) : list string :=
  match s with
  | EmptyString => [EmptyString]
  | String a s' =>
      if Ascii.eqb a c then EmptyString :: split_on c s'
      else match split_on c s' with
           | [] => [String a EmptyString]
           | h :: t => String a h :: t
           end
  end.

Fixpoint contains (c : ascii) (s : string) : bool :=
  match s with
  | EmptyString => false
  | String a s' => Ascii.eqb a c || contains c s'
  end.

(** *** Collecting the images *)

Definition IMAGE_EXTENSIONS : list string :=
  [".png"; ".jpg"; ".jpeg"; ".tif"; ".tiff"]%string.

(** [str.lower()] on one character: [A]..[Z] go to [a]..[z].  Strings are
    byte strings here; the bytes of a non-ASCII character are left alone,
    which does not change whether the lowered name ends with one of the
    ASCII extensions above. *)
Definition lower_ascii (a : ascii) : ascii :=
  let n := N_of_ascii a in
  if (65 <=? n)%N && (n <=? 90)%N then ascii_of_N (n + 32) else a.

Fixpoint lower (s : string) : string :=
  match s with
  | EmptyString => EmptyString
  | String a s' => String (lower_ascii a) (lower s')
  end.

(** [s.endswith(suffix)]: some tail of [s] is [suffix]. *)
Fixpoint endswith (s suffix : string) : bool :=
  String.eqb s suffix
  || match s with
     | EmptyString => false
     | String _ s' => endswith s' suffix
     end.

(** [f.lower().endswith(IMAGE_EXTENSIONS)], the suffix being a tuple. *)
Definition has_image_extension (f : string) : bool :=
  existsb (endswith (lower f)) IMAGE_EXTENSIONS.

(** The directory tree under the dataset root, as [os.walk] lists it: a
    directory is the list of its entries, each a file name or a
    sub-directory the walk descends into.  (A link to a directory is listed
    among the directory names, which the script ignores, and is not
    descended into: it does not appear here.  A root that cannot be listed
    walks like an empty one.) *)
#[warnings="-register-all"]
Inductive entry : Type :=
| File (nm : string)
| Directory (nm : string) (entries : list entry).

Definition filenames (entries : list entry) : list string :=
  flat_map (fun e => match e with File nm => [nm] | Directory _ _ => [] end)
    entries.

Definition dirnames (entries : list entry) : list string :=
  flat_map (fun e => match e with File _ => [] | Directory nm _ => [nm] end)
    entries.

(** [os.walk(top)], top-down: the triple [(root, dirs, files)] of a
    directory comes before those of its sub-directories, which are walked
    in listing order. *)
Fixpoint walk_entry (top : Path) (e : entry)
  : list (Path * list string * list string) :=
  match e with
  | File _ => []
  | Directory nm sub =>
      (top ++ [nm], dirnames sub, filenames sub)
        :: flat_map (walk_entry (top ++ [nm])) sub
  end.

Definition walk (top : Path) (entries : list entry)
  : list (Path * list string * list string) :=
  (top, dirnames entries, filenames entries) :: flat_map (walk_entry top) entries.

(**
<<
def collect_images(dataset_root):
    images = []
    for root, _, files in os.walk(dataset_root):
        for f in files:
            if f.lower().endswith(IMAGE_EXTENSIONS):
                images.append(Path(root) / f)
    return images
>>
    [entries] is the content of the directory [dataset_root]. *)
Definition collect_images (dataset_root : Path) (entries : list entry)
  : list Path :=
  flat_map
    (fun '(root, _, files) =>
       map (fun f => root ++ [f]) (filter has_image_extension files))
    (walk dataset_root entries).

(** [file_at entries dirs f]: going down the directories [dirs] from a
    directory with content [entries] leads to a directory that lists the
    file [f]. *)
Inductive file_at : list entry -> list string -> string -> Prop :=
| file_here (entries : list entry) (f : string) :
    In (File f) entries -> file_at entries [] f
| file_below (entries sub : list entry) (nm : string) (dirs : list string)
    (f : string) :
    In (Directory nm sub) entries -> file_at sub dirs f ->
    file_at entries (nm :: dirs) f.

(** ** OpenCV as a collaborator *)

(** A grayscale image ([np.ndarray] of 8-bit samples, row-major). *)
Definition image : Type := list (list Z).

(** A contour: the sequence of its pixel coordinates; [len(cnt)] is the
    number of points. *)
Definition point : Type := (Z * Z)%type.
Definition contour : Type := list point.

(** The value returned by [cv2.fitEllipse]:
    [((cx, cy), (major, minor), angle)], the two sizes being full axis
    lengths in the order the routine returns them. *)
Definition RotatedRect : Type :=
  ((pyfloat * pyfloat) * (pyfloat * pyfloat) * pyfloat)%type.

Inductive threshold_type : Type := THRESH_BINARY.
Inductive retrieval_mode : Type := RETR_EXTERNAL.
Inductive approx_method : Type := CHAIN_APPROX_SIMPLE.

(** The OpenCV entry points the script calls.  [fit] is the least-squares
    fit itself, defined on contours of five points or more; [imread] gives
    [None] when the file cannot be decoded. *)
Record cv2 : Type := {
  imread : Path -> option image;
  GaussianBlur : image -> Z * Z -> Z -> image;
  threshold : image -> Z -> Z -> threshold_type -> Z * image;
  Canny : image -> Z -> Z -> image;
  findContours : image -> retrieval_mode -> approx_method -> list contour * unit;
  fit : contour -> RotatedRect
}.

(** [cv2.fitEllipse(cnt)]: raises [cv2.error] on fewer than five points. *)
Definition fitEllipse (cv : cv2) (cnt : contour) : result RotatedRect :=
  if Z.of_nat (List.length cnt) <? 5 then Raise CvError else Ok (fit cv cnt).

(** ** The crater detector *)

(** One detection: the tuple [(cx, cy, a, b, angle_deg)]. *)
Definition detection : Type :=
  (pyfloat * pyfloat * pyfloat * pyfloat * pyfloat)%type.

Definition semi_major (d : detection) : pyfloat := let '(_, _, a, _, _) := d in a.
Definition semi_minor (d : detection) : pyfloat := let '(_, _, _, b, _) := d in b.
Definition rotation (d : detection) : pyfloat := let '(_, _, _, _, angle) := d in angle.

(** The body of [for cnt in contours:], as a function of the list
    [detections] built so far.
<<
        if len(cnt) < 5:
            continue
        ellipse = cv2.fitEllipse(cnt)
        (cx, cy), (major, minor), angle = ellipse
        if major < 10 or minor < 10:
            continue
        if minor > major:
            major, minor = minor, major
        detections.append((cx, cy, major / 2, minor / 2, angle))
>> *)
Definition detect_body (cv : cv2) (cnt : contour) (detections : list detection)
  : result (list detection) :=
  if Z.of_nat (List.length cnt) <? 5 then Ok detections
  else
    do ellipse <- fitEllipse cv cnt;
    let '((cx, cy), (major, minor), angle) := ellipse in
    if flt_lt major (of_int 10) || flt_lt minor (of_int 10) then Ok detections
    else
      let '(major, minor) :=
        if flt_gt minor major then (minor, major) else (major, minor) in
      Ok (detections ++ [(cx, cy, flt_half major, flt_half minor, angle)]).

Fixpoint detect_loop (cv : cv2) (contours : list contour)
  (detections : list detection) : result (list detection) :=
  match contours with
  | [] => Ok detections
  | cnt :: rest =>
      do detections' <- detect_body cv cnt detections;
      detect_loop cv rest detections'
  end.

(**
<<
def detect_craters(img):
    img_blur = cv2.GaussianBlur(img, (5, 5), 0)
    _, img_thresh = cv2.threshold(img_blur, 30, 255, cv2.THRESH_BINARY)
    edges = cv2.Canny(img_thresh, 50, 150)
    contours, _ = cv2.findContours(edges, cv2.RETR_EXTERNAL, cv2.CHAIN_APPROX_SIMPLE)
    detections = []
    for cnt in contours: ...
    return detections
>> *)
Definition find_contours (cv : cv2) (img : image) : list contour :=
  let img_blur := GaussianBlur cv img (5, 5) 0 in
  let '(_, img_thresh) := threshold cv img_blur 30 255 THRESH_BINARY in
  let edges := Canny cv img_thresh 50 150 in
  let '(contours, _) := findContours cv edges RETR_EXTERNAL CHAIN_APPROX_SIMPLE in
  contours.

Definition detect_craters (cv : cv2) (img : image) : result (list detection) :=
  detect_loop cv (find_contours cv img) [].

(** [kept cv cnt d]: the contour [cnt] gets through both filters and [d] is
    the record appended for it, whatever was detected before. *)
Definition kept (cv : cv2) (cnt : contour) (d : detection) : Prop :=
  forall detections, detect_body cv cnt detections = Ok (detections ++ [d]).

(** [emitted cv img d]: the detector returns a list that holds [d]. *)
Definition emitted (cv : cv2) (img : image) (d : detection) : Prop :=
  exists detections, detect_craters cv img = Ok detections /\ In d detections.

(** The contours the loop hands to the fit. *)
Definition long_enough (cnt : contour) : bool :=
  5 <=? Z.of_nat (List.length cnt).

(** ** The output table *)

(** A CSV cell is the Python value handed to [writerow]. *)
Inductive cell : Type :=
| PyInt (z : Z)
| PyFloat (x : pyfloat)
| PyStr (s : string).

Definition row : Type := list cell.

(** The text the csv writer makes of a cell, before any quoting (which a
    number never needs): [str] of an [int], [repr] of a [float], a string
    as it is. *)
Definition cell_text (c : cell) : string :=
  match c with
  | PyInt z => str_int z
  | PyFloat x => py_repr x
  | PyStr s => s
  end.

(** The file being written: the rows so far. *)
Definition csv_file : Type := list row.

(** Code that writes to the file and may raise; rows written before an
    exception stay written. *)
Definition IO (A : Type) : Type := csv_file -> result A * csv_file.

Definition io_ret {A : Type} (a : A) : IO A := fun f => (Ok a, f).

Definition io_bind {A B : Type} (m : IO A) (k : A -> IO B) : IO B :=
  fun f =>
    match m f with
    | (Ok a, f') => k a f'
    | (Raise e, f') => (Raise e, f')
    end.

Definition io_lift {A : Type} (r : result A) : IO A := fun f => (r, f).

Definition writerow (r : row) : IO unit := fun f => (Ok tt, f ++ [r]).

Notation "'io' x <- e ; k" := (io_bind e (fun x => k))
  (at level 10, x name, e at level 100, k at level 200).
Notation "e ;; k" := (io_bind e (fun _ => k))
  (at level 61, right associativity).

Definition header : row :=
  [ PyStr "ellipseCenterX(px)"; PyStr "ellipseCenterY(px)";
    PyStr "ellipseSemimajor(px)"; PyStr "ellipseSemiminor(px)";
    PyStr "ellipseRotation(deg)"; PyStr "inputImage";
    PyStr "crater_classification" ].

(** [[-1, -1, -1, -1, -1, image_id, -1]] *)
Definition sentinel_row (image_id : string) : row :=
  [ PyInt (-1); PyInt (-1); PyInt (-1); PyInt (-1); PyInt (-1);
    PyStr image_id; PyInt (-1) ].

(** [[round(float(cx), 2), ..., round(float(angle), 2), image_id, -1]] *)
Definition detection_row (image_id : string) (d : detection) : row :=
  let '(cx, cy, a, b, angle) := d in
  [ PyFloat (py_round2 cx); PyFloat (py_round2 cy);
    PyFloat (py_round2 a); PyFloat (py_round2 b);
    PyFloat (py_round2 angle); PyStr image_id; PyInt (-1) ].

(** [for (cx, cy, a, b, angle) in detections: writer.writerow([...])] *)
Fixpoint write_detections (image_id : string) (detections : list detection)
  : IO unit :=
  match detections with
  | [] => io_ret tt
  | d :: rest =>
      writerow (detection_row image_id d) ;; write_detections image_id rest
  end.

(**
<<
            if len(detections) == 0:
                writer.writerow([-1, -1, -1, -1, -1, image_id, -1])
            else:
                for (cx, cy, a, b, angle) in detections: ...
>> *)
Definition write_rows (image_id : string) (detections : list detection)
  : IO unit :=
  if Z.of_nat (List.length detections) =? 0 then writerow (sentinel_row image_id)
  else write_detections image_id detections.

(** The body of [for idx, img_path in enumerate(images, 1):]. *)
Definition process_image (cv : cv2) (dataset_root img_path : Path) : IO unit :=
  match imread cv img_path with
  | None => io_ret tt
  | Some img =>
      io image_id <- io_lift (image_id_from_path img_path dataset_root);
      io detections <- io_lift (detect_craters cv img);
      write_rows image_id detections
  end.

Fixpoint process_images (cv : cv2) (dataset_root : Path) (images : list Path)
  : IO unit :=
  match images with
  | [] => io_ret tt
  | img_path :: rest =>
      process_image cv dataset_root img_path ;;
      process_images cv dataset_root rest
  end.

(** [open(OUTPUT_CSV, "w")]: whatever the file held is gone. *)
Definition open_w : IO unit := fun _ => (Ok tt, []).

(** [main], given the list [images] that [collect_images] returned. *)
Definition main (cv : cv2) (dataset_root : Path) (images : list Path) : IO unit :=
  open_w ;; writerow header ;; process_images cv dataset_root images.

(** What the loop body does for one image, started on an empty file: its
    outcome and the rows it writes. *)
Definition image_result (cv : cv2) (dataset_root img_path : Path) : result unit :=
  fst (process_image cv dataset_root img_path []).

Definition image_block (cv : cv2) (dataset_root img_path : Path) : list row :=
  snd (process_image cv dataset_root img_path []).

(** An image the loop body gets through: it does not decode, or its
    identifier can be derived. *)
Definition image_ok (cv : cv2) (dataset_root img_path : Path) : Prop :=
  imread cv img_path = None
  \/ exists image_id, image_id_from_path img_path dataset_root = Ok image_id.

(** *** Reading the table back *)

(** The number a cell stands for is [-1]. *)
Definition cell_is_minus_one (c : cell) : bool :=
  match c with
  | PyInt z => z =? -1
  | PyFloat (Finite q) => Qeq_bool q (-1 # 1)
  | _ => false
  end.

(** A row is a sentinel row when its five geometric cells all stand for -1. *)
Definition is_sentinel (r : row) : bool :=
  match r with
  | [c1; c2; c3; c4; c5; _; _] =>
      cell_is_minus_one c1 && cell_is_minus_one c2 && cell_is_minus_one c3
      && cell_is_minus_one c4 && cell_is_minus_one c5
  | _ => false
  end.

(** The [inputImage] column of a row. *)
Definition row_image (r : row) : option string :=
  match nth_error r 5 with
  | Some (PyStr s) => Some s
  | _ => None
  end.

(** ** Concrete inputs used by the examples *)

(** An OpenCV stand-in: every file decodes, every image has the contours [cs],
    and every fit returns [rect]. *)
Definition cv_stub (cs : list contour) (rect : RotatedRect) : cv2 :=
  {| imread := fun _ => Some [];
     GaussianBlur := fun img _ _ => img;
     threshold := fun img thresh _ _ => (thresh, img);
     Canny := fun img _ _ => img;
     findContours := fun _ _ _ => (cs, tt);
     fit := fun _ => rect |}.

Definition dec (n : Z) (d : positive) : pyfloat := Finite (n # d).

Definition pentagon : contour := [(0, 0); (40, 0); (52, 30); (20, 50); (-12, 30)].
Definition triangle : contour := [(0, 0); (40, 0); (20, 30)].

(** A fit with the axes in the order (20, 40): the second exceeds the first. *)
Definition rect_reversed : RotatedRect :=
  ((dec 100 1, dec 100 1), (dec 20 1, dec 40 1), dec 30 1).

(** The fit of the spec's scenario: major = 8, minor = 20. *)
Definition rect_8_20 : RotatedRect :=
  ((dec 100 1, dec 100 1), (dec 8 1, dec 20 1), dec 0 1).

(** A fit with raw center (123.456, 78.901). *)
Definition rect_center : RotatedRect :=
  ((dec 123456 1000, dec 78901 1000), (dec 40 1, dec 20 1), dec 30 1).

(** The records the stand-in fits lead to. *)
Definition det_reversed : detection :=
  (dec 100 1, dec 100 1, flt_half (dec 40 1), flt_half (dec 20 1), dec 30 1).
Definition det_center : detection :=
  (dec 123456 1000, dec 78901 1000, flt_half (dec 40 1), flt_half (dec 20 1),
   dec 30 1).

(** A small dataset: one image two levels down, one a level deeper, a text
    file, and one image directly under the root. *)
Definition tree_example : list entry :=
  [ Directory "altitude01"
      [ Directory "longitude05"
          [ File "orientation01_light01.PNG"; File "notes.txt";
            Directory "extra" [ File "deep.jpeg" ] ] ];
    File "top.tif" ]%string.

Definition root_dir : Path := ["root"%string].
Definition path_two_levels : Path :=
  ["root"; "altitude01"; "longitude05"; "orientation01_light01.png"]%string.
Definition path_one_level : Path := ["root"; "altitude01"; "img.png"]%string.
Definition path_no_level : Path := ["root"; "img.png"]%string.

(** * Properties *)

(** ** Arithmetic of floats *)

Lemma Qltb_lt (x y : Q) : Qltb x y = true <-> (x < y)%Q.
Proof. unfold Qltb, Qlt. apply Z.ltb_lt. Qed.

Lemma Qleb_le (x y : Q) : Qleb x y = true <-> (x <= y)%Q.
Proof. unfold Qleb, Qle. apply Z.leb_le. Qed.

Lemma Qltb_false (x y : Q) : Qltb x y = false <-> (y <= x)%Q.
Proof. unfold Qltb, Qle. rewrite Z.ltb_ge. reflexivity. Qed.

Lemma Qhalf_le (x y : Q) : (x <= y)%Q -> (x / 2 <= y / 2)%Q.
Proof.
  intros H. unfold Qdiv. apply Qmult_le_compat_r; [exact H | discriminate].
Qed.

Lemma Qhalf_10 (x : Q) : (10 <= x)%Q -> (5 <= x / 2)%Q.
Proof.
  intros H. apply (Qhalf_le 10 x) in H.
  eapply Qle_trans; [| exact H]. discriminate.
Qed.

(** A float that is not below 10 has a half that is not below 5: NaN and the
    infinities included. *)
Lemma half_not_below_5 (x : pyfloat) :
  flt_lt x (of_int 10) = false -> flt_lt (flt_half x) (of_int 5) = false.
Proof.
  destruct x as [q | | |]; simpl; try reflexivity; try discriminate.
  rewrite !Qltb_false. apply Qhalf_10.
Qed.

(** Off NaN, "not below" is "at least". *)
Lemma not_lt_ge (x y : pyfloat) :
  is_nan x = false -> is_nan y = false ->
  flt_lt x y = false -> flt_ge x y = true.
Proof.
  unfold flt_ge.
  destruct x as [a | | |], y as [b | | |]; simpl; intros; try reflexivity;
    try discriminate.
  apply Qleb_le. apply Qltb_false. assumption.
Qed.




(** ** Rounding to two decimals *)


Lemma round_half_even_floor (q : Q) : Qnum q / QDen q <= round_half_even q.
Proof.
  unfold round_half_even.
  destruct (_ <? _); [lia |].
  destruct (_ <? _); [lia |].
  destruct (Z.even _); lia.
Qed.

Lemma Qnum_mult_100 (q : Q) : Qnum (q * 100) = Qnum q * 100.
Proof. reflexivity. Qed.

Lemma QDen_mult_100 (q : Q) : QDen (q * 100) = QDen q.
Proof. simpl. rewrite Pos.mul_1_r. reflexivity. Qed.


Lemma round2_ge_5 (q : Q) : (5 <= q)%Q -> 500 <= round_half_even (q * 100).
Proof.
  intros H. eapply Z.le_trans; [| apply round_half_even_floor].
  rewrite Qnum_mult_100, QDen_mult_100.
  unfold Qle in H. simpl in H.
  apply Z.div_le_lower_bound; lia.
Qed.

Lemma round_half_even_ties (q : Q) :
  let k := round_half_even q in
  (2 * (k * QDen q - Qnum q) < QDen q
   \/ (2 * (k * QDen q - Qnum q) = QDen q /\ Z.even k = true))
  /\ (2 * (Qnum q - k * QDen q) < QDen q
      \/ (2 * (Qnum q - k * QDen q) = QDen q /\ Z.even k = true)).
Proof.
  unfold round_half_even.
  set (n := Qnum q). set (d := QDen q).
  assert (Hd : 0 < d) by (unfold d; lia).
  pose proof (Z.div_mod n d ltac:(lia)) as Hdm.
  pose proof (Z.mod_pos_bound n d Hd) as Hr.
  cbv zeta.
  destruct (Z.ltb_spec (2 * (n mod d)) d) as [Hlt | Hge].
  - split; left; nia.
  - destruct (Z.ltb_spec d (2 * (n mod d))) as [Hgt | Hle].
    + split; left; nia.
    + destruct (Z.even (n / d)) eqn:Hev.
      * split; [left; nia | right; split; [nia | exact Hev]].
      * assert (Hev' : Z.even (n / d + 1) = true).
        { rewrite Z.add_1_r, Z.even_succ, <- Z.negb_even, Hev. reflexivity. }
        split; [right; split; [nia | exact Hev'] | left; nia].
Qed.

Lemma round_half_even_mono (q1 q2 : Q) :
  (q1 <= q2)%Q -> round_half_even q1 <= round_half_even q2.
Proof.
  intros Hle. unfold Qle in Hle.
  pose proof (round_half_even_ties q1) as [Hup1 _].
  pose proof (round_half_even_ties q2) as [_ Hlow2].
  cbv zeta in *.
  set (k1 := round_half_even q1) in *. set (k2 := round_half_even q2) in *.
  set (n1 := Qnum q1) in *. set (n2 := Qnum q2) in *.
  assert (Hd1 : 0 < QDen q1) by lia. assert (Hd2 : 0 < QDen q2) by lia.
  set (d1 := QDen q1) in *. set (d2 := QDen q2) in *.
  destruct (Z.le_gt_cases k1 k2) as [H | Hgt]; [exact H | exfalso].
  assert (Hsum : 2 * (k1 - k2) * (d1 * d2) + 2 * (n2 * d1 - n1 * d2)
                 = d2 * (2 * (k1 * d1 - n1)) + d1 * (2 * (n2 - k2 * d2)))
    by ring.
  assert (Hdd : 0 < d1 * d2) by nia.
  assert (Hk : d1 * d2 <= (k1 - k2) * (d1 * d2)) by nia.
  destruct Hup1 as [Hup1 | [Hup1 Hev1]].
  - assert (d2 * (2 * (k1 * d1 - n1)) < d2 * d1) by nia.
    assert (d1 * (2 * (n2 - k2 * d2)) <= d1 * d2)
      by (destruct Hlow2 as [? | [? _]]; nia).
    nia.
  - destruct Hlow2 as [Hlow2 | [Hlow2 Hev2]].
    + assert (d1 * (2 * (n2 - k2 * d2)) < d1 * d2) by nia.
      assert (d2 * (2 * (k1 * d1 - n1)) = d2 * d1) by nia.
      nia.
    + assert (Heq : (k1 - k2) * (d1 * d2) <= d1 * d2) by nia.
      assert (Hone : k1 = k2 + 1) by nia.
      rewrite Hone, Z.add_1_r, Z.even_succ, <- Z.negb_even, Hev2 in Hev1.
      discriminate.
Qed.

(** ** Rounding to binary64 *)

Lemma round_half_even_int (k : Z) : round_half_even (k # 1) = k.
Proof.
  unfold round_half_even. cbn [Qnum Qden].
  rewrite Z.div_1_r, Z.mod_1_r. reflexivity.
Qed.

Lemma round_half_even_le (q : Q) (k : Z) :
  (q <= k # 1)%Q -> round_half_even q <= k.
Proof.
  intros H. rewrite <- (round_half_even_int k).
  apply round_half_even_mono. exact H.
Qed.

Lemma round_half_even_ge (q : Q) (k : Z) :
  (k # 1 <= q)%Q -> k <= round_half_even q.
Proof.
  intros H. rewrite <- (round_half_even_int k).
  apply round_half_even_mono. exact H.
Qed.

Lemma b64_scale_pos : 0 < b64_scale.
Proof. unfold b64_scale. apply Z.pow_pos_nonneg; lia. Qed.

Lemma b64_shift_nonneg (A d : Z) : 0 <= b64_shift A d.
Proof. unfold b64_shift. lia. Qed.

Lemma div_le_cross (A1 d1 A2 d2 : Z) :
  0 < d1 -> 0 < d2 -> A1 * d2 <= A2 * d1 -> A1 / d1 <= A2 / d2.
Proof.
  intros H1 H2 H.
  apply Z.div_le_lower_bound; [exact H2 |].
  pose proof (Z.mul_div_le A1 d1 H1).
  nia.
Qed.

(** What the shift guarantees: the count divided by [2^s] is below [2^53],
    and is at least [2^52] when the shift is not zero. *)
Lemma b64_shift_upper (A d : Z) :
  0 <= A -> 0 < d -> A < 2 ^ 53 * (d * 2 ^ b64_shift A d).
Proof.
  intros HA Hd. unfold b64_shift.
  set (F := A / d).
  assert (HF : 0 <= F) by (apply Z.div_pos; lia).
  assert (Hlt : A < (F + 1) * d).
  { pose proof (Z.mod_pos_bound A d Hd). pose proof (Z.div_mod A d ltac:(lia)).
    unfold F. nia. }
  set (s := Z.max 0 (Z.log2 F - 52)).
  assert (Hs : 0 <= s) by lia.
  assert (HFs : F + 1 <= 2 ^ (53 + s)).
  { destruct (Z.eq_dec F 0) as [-> | HF0].
    - pose proof (Z.pow_pos_nonneg 2 (53 + s) ltac:(lia) ltac:(lia)). lia.
    - pose proof (Z.log2_spec F ltac:(lia)) as [_ Hup].
      assert (Z.succ (Z.log2 F) <= 53 + s) by lia.
      pose proof (Z.pow_le_mono_r 2 _ _ ltac:(lia) H). lia. }
  rewrite Z.pow_add_r in HFs by lia.
  pose proof (Z.pow_pos_nonneg 2 s ltac:(lia) Hs).
  nia.
Qed.

Lemma b64_shift_lower (A d : Z) :
  0 <= A -> 0 < d -> 0 < b64_shift A d ->
  2 ^ 52 * (d * 2 ^ b64_shift A d) <= A.
Proof.
  intros HA Hd. unfold b64_shift.
  set (F := A / d). intros Hs.
  assert (Hlog : Z.max 0 (Z.log2 F - 52) = Z.log2 F - 52) by lia.
  rewrite Hlog in *.
  assert (HF : 0 < F).
  { destruct (Z.le_gt_cases F 0) as [H0 |]; [| assumption].
    rewrite (Z.log2_nonpos F H0) in Hs. lia. }
  pose proof (Z.log2_spec F HF) as [Hlow _].
  assert (Hpow : 2 ^ Z.log2 F = 2 ^ 52 * 2 ^ (Z.log2 F - 52)).
  { rewrite <- Z.pow_add_r by lia. f_equal. lia. }
  pose proof (Z.mul_div_le A d Hd). fold F in H.
  pose proof (Z.pow_pos_nonneg 2 (Z.log2 F - 52) ltac:(lia) ltac:(lia)).
  nia.
Qed.

Lemma b64_units_eq (q : Q) :
  let A := Qnum q * b64_scale in
  let D := QDen q * 2 ^ b64_shift A (QDen q) in
  0 < D
  /\ b64_units q = round_half_even (A # Z.to_pos D) * 2 ^ b64_shift A (QDen q)
  /\ QDen (A # Z.to_pos D) = D.
Proof.
  cbv zeta.
  pose proof (Z.pow_pos_nonneg 2 (b64_shift (Qnum q * b64_scale) (QDen q))
                ltac:(lia) (b64_shift_nonneg _ _)) as Hp.
  assert (HD : 0 < QDen q * 2 ^ b64_shift (Qnum q * b64_scale) (QDen q)) by nia.
  split; [exact HD |]. split; [reflexivity |].
  cbn [Qden]. apply Z2Pos.id. exact HD.
Qed.

Lemma b64_units_nonneg (q : Q) : 0 <= Qnum q -> 0 <= b64_units q.
Proof.
  intros Hq. destruct (b64_units_eq q) as (HD & -> & HDen).
  pose proof b64_scale_pos.
  apply Z.mul_nonneg_nonneg.
  - apply round_half_even_ge. unfold Qle. cbn [Qnum Qden]. nia.
  - apply Z.pow_nonneg. lia.
Qed.

Lemma b64_units_mono (q1 q2 : Q) :
  0 <= Qnum q1 -> (q1 <= q2)%Q -> b64_units q1 <= b64_units q2.
Proof.
  intros H1 Hle. unfold Qle in Hle.
  assert (H2 : 0 <= Qnum q2) by nia.
  destruct (b64_units_eq q1) as (HD1 & -> & HDen1).
  destruct (b64_units_eq q2) as (HD2 & -> & HDen2).
  pose proof b64_scale_pos as HS.
  set (S := b64_scale) in *.
  set (A1 := Qnum q1 * S) in *. set (A2 := Qnum q2 * S) in *.
  set (d1 := QDen q1) in *. set (d2 := QDen q2) in *.
  assert (Hd1 : 0 < d1) by (unfold d1; lia).
  assert (Hd2 : 0 < d2) by (unfold d2; lia).
  assert (HA1 : 0 <= A1) by (unfold A1; nia).
  assert (HA2 : 0 <= A2) by (unfold A2; nia).
  assert (HA : A1 * d2 <= A2 * d1) by (unfold A1, A2; nia).
  assert (Hs : b64_shift A1 d1 <= b64_shift A2 d2).
  { unfold b64_shift.
    pose proof (Z.log2_le_mono _ _ (div_le_cross _ _ _ _ Hd1 Hd2 HA)). lia. }
  pose proof (b64_shift_nonneg A1 d1) as Hs1.
  set (s1 := b64_shift A1 d1) in *. set (s2 := b64_shift A2 d2) in *.
  pose proof (Z.pow_pos_nonneg 2 s1 ltac:(lia) Hs1) as Hp1.
  pose proof (Z.pow_pos_nonneg 2 s2 ltac:(lia) ltac:(lia)) as Hp2.
  destruct (Z.eq_dec s1 s2) as [Heq | Hne].
  - rewrite <- Heq in *. apply Z.mul_le_mono_nonneg_r; [lia |].
    apply round_half_even_mono. unfold Qle. cbn [Qnum].
    rewrite HDen1, HDen2. nia.
  - assert (Hlt : s1 + 1 <= s2) by lia.
    pose proof (b64_shift_upper A1 d1 HA1 Hd1) as Hup. fold s1 in Hup.
    pose proof (b64_shift_lower A2 d2 HA2 Hd2 ltac:(fold s2; lia)) as Hlow.
    fold s2 in Hlow.
    assert (Hm1 : round_half_even (A1 # Z.to_pos (d1 * 2 ^ s1)) <= 2 ^ 53).
    { apply round_half_even_le. unfold Qle. cbn [Qnum].
      rewrite HDen1. cbn [Qden]. lia. }
    assert (Hm2 : 2 ^ 52 <= round_half_even (A2 # Z.to_pos (d2 * 2 ^ s2))).
    { apply round_half_even_ge. unfold Qle. cbn [Qnum].
      rewrite HDen2. cbn [Qden]. lia. }
    pose proof (Z.pow_le_mono_r 2 (s1 + 1) s2 ltac:(lia) Hlt) as Hpow.
    rewrite Z.pow_add_r in Hpow by lia. change (2 ^ 1) with 2 in Hpow.
    change (2 ^ 53) with (2 * 2 ^ 52) in Hm1.
    assert (0 < 2 ^ 52) by (apply Z.pow_pos_nonneg; lia).
    set (T := 2 ^ 52) in *.
    nia.
Qed.

Lemma b64_nonneg_eq (q : Q) :
  0 <= Qnum q -> b64 q = b64_units q # Z.to_pos b64_scale.
Proof.
  intros H. unfold b64.
  destruct (Z.ltb_spec (Qnum q) 0); [lia | reflexivity].
Qed.

Lemma Qnum_opp (q : Q) : Qnum (- q) = - Qnum q.
Proof. destruct q. reflexivity. Qed.

Lemma b64_neg_eq (q : Q) : Qnum q < 0 -> b64 q = (- b64 (- q))%Q.
Proof.
  intros H. unfold b64 at 1.
  destruct (Z.ltb_spec (Qnum q) 0); [| lia].
  rewrite (b64_nonneg_eq (- q)); [reflexivity |].
  rewrite Qnum_opp. lia.
Qed.

(** Rounding to binary64 keeps the order. *)
Lemma b64_mono (q1 q2 : Q) : (q1 <= q2)%Q -> (b64 q1 <= b64 q2)%Q.
Proof.
  intros Hle.
  assert (HP : Z.pos (Z.to_pos b64_scale) = b64_scale)
    by (apply Z2Pos.id; exact b64_scale_pos).
  pose proof b64_scale_pos as HS.
  destruct (Z.lt_ge_cases (Qnum q1) 0) as [H1 | H1];
    destruct (Z.lt_ge_cases (Qnum q2) 0) as [H2 | H2].
  - rewrite (b64_neg_eq _ H1), (b64_neg_eq _ H2).
    apply Qopp_le_compat.
    assert (Hn : 0 <= Qnum (- q2)) by (rewrite Qnum_opp; lia).
    rewrite !b64_nonneg_eq by (rewrite Qnum_opp; lia).
    assert (Hm : b64_units (- q2) <= b64_units (- q1)).
    { apply b64_units_mono; [exact Hn |]. apply Qopp_le_compat. exact Hle. }
    unfold Qle. cbn [Qnum Qden]. rewrite HP. nia.
  - rewrite (b64_neg_eq _ H1), (b64_nonneg_eq _ H2).
    assert (Hn : 0 <= Qnum (- q1)) by (rewrite Qnum_opp; lia).
    rewrite (b64_nonneg_eq _ Hn).
    pose proof (b64_units_nonneg _ Hn). pose proof (b64_units_nonneg _ H2).
    unfold Qle. cbn [Qnum Qden Qopp]. rewrite HP. nia.
  - exfalso. unfold Qle in Hle.
    assert (0 < QDen q1) by lia. assert (0 < QDen q2) by lia. nia.
  - rewrite (b64_nonneg_eq _ H1), (b64_nonneg_eq _ H2).
    pose proof (b64_units_mono _ _ H1 Hle).
    unfold Qle. cbn [Qnum Qden]. rewrite HP. nia.
Qed.

(** Small integers are binary64 values. *)
Lemma b64_5 : (b64 5 == 5)%Q.
Proof. vm_compute. reflexivity. Qed.

Lemma b64_ge_5 (q : Q) : (5 <= q)%Q -> (5 <= b64 q)%Q.
Proof.
  intros H. rewrite <- b64_5. apply b64_mono. exact H.
Qed.



(** A rounded float that was not below 5 does not read as -1. *)
Lemma rounded_not_minus_one (x : pyfloat) :
  flt_lt x (of_int 5) = false ->
  cell_is_minus_one (PyFloat (py_round2 x)) = false.
Proof.
  destruct x as [q | | |]; cbn [py_round2 cell_is_minus_one flt_lt of_int];
    try reflexivity.
  rewrite Qltb_false. intros H.
  assert (H5 : (5 <= round2 q)%Q).
  { apply round2_ge_5 in H. unfold round2, Qle. cbn [Qnum Qden inject_Z]. lia. }
  apply b64_ge_5 in H5.
  destruct (Qeq_bool (b64 (round2 q)) (-1 # 1)) eqn:E; [| reflexivity].
  apply Qeq_bool_iff in E. rewrite E in H5. exfalso. apply H5. reflexivity.
Qed.

(** ** The contour loop *)

Lemma fitEllipse_ok (cv : cv2) (cnt : contour) :
  5 <= Z.of_nat (List.length cnt) -> fitEllipse cv cnt = Ok (fit cv cnt).
Proof.
  intros H. unfold fitEllipse.
  destruct (Z.ltb_spec (Z.of_nat (List.length cnt)) 5); [lia | reflexivity].
Qed.

(** One contour adds nothing or exactly one record, and never raises. *)
Lemma detect_body_shape (cv : cv2) (cnt : contour) :
  (forall detections, detect_body cv cnt detections = Ok detections)
  \/ (exists d, kept cv cnt d).
Proof.
  unfold kept, detect_body, fitEllipse.
  destruct (Z.of_nat (List.length cnt) <? 5); [left; reflexivity |].
  cbn [bind].
  destruct (fit cv cnt) as [[[cx cy] [major minor]] angle].
  destruct (flt_lt major (of_int 10) || flt_lt minor (of_int 10));
    [left; reflexivity |].
  destruct (flt_gt minor major); right; eexists; intros; reflexivity.
Qed.

Lemma kept_inv (cv : cv2) (cnt : contour) (d : detection) :
  kept cv cnt d ->
  exists cx cy major minor angle,
    fit cv cnt = ((cx, cy), (major, minor), angle)
    /\ 5 <= Z.of_nat (List.length cnt)
    /\ flt_lt major (of_int 10) = false
    /\ flt_lt minor (of_int 10) = false
    /\ d = (if flt_gt minor major
            then (cx, cy, flt_half minor, flt_half major, angle)
            else (cx, cy, flt_half major, flt_half minor, angle)).
Proof.
  intros K. specialize (K []). revert K.
  unfold detect_body, fitEllipse.
  destruct (Z.ltb_spec (Z.of_nat (List.length cnt)) 5); [discriminate |].
  cbn [bind].
  destruct (fit cv cnt) as [[[cx cy] [major minor]] angle].
  destruct (flt_lt major (of_int 10)) eqn:E1; [discriminate |].
  destruct (flt_lt minor (of_int 10)) eqn:E2; [discriminate |].
  cbn [orb app].
  exists cx, cy, major, minor, angle.
  destruct (flt_gt minor major); injection K as <-; repeat split; assumption.
Qed.

Lemma detect_loop_total (cv : cv2) (contours : list contour) :
  forall detections, exists out, detect_loop cv contours detections = Ok out.
Proof.
  induction contours as [| cnt rest IH]; intros detections; simpl.
  - eexists; reflexivity.
  - destruct (detect_body_shape cv cnt) as [H | [d K]].
    + rewrite H. apply IH.
    + rewrite (K detections). apply IH.
Qed.

(** Every record of the result was there at the start or was added for one
    of the contours. *)
Lemma detect_loop_In (cv : cv2) (contours : list contour) (d : detection) :
  forall detections out,
    detect_loop cv contours detections = Ok out ->
    In d out ->
    In d detections \/ exists cnt, In cnt contours /\ kept cv cnt d.
Proof.
  induction contours as [| cnt rest IH]; intros detections out; simpl.
  - intros [= <-] Hin. left; exact Hin.
  - destruct (detect_body_shape cv cnt) as [H | [d' K]].
    + rewrite H. cbn [bind]. intros Hl Hin.
      destruct (IH _ _ Hl Hin) as [? | (c & ? & ?)]; [left; assumption |].
      right. exists c. split; [right |]; assumption.
    + rewrite (K detections). cbn [bind]. intros Hl Hin.
      destruct (IH _ _ Hl Hin) as [Hd | (c & ? & ?)].
      * apply in_app_or in Hd. destruct Hd as [? | [<- | []]].
        -- left; assumption.
        -- right. exists cnt. split; [left; reflexivity | assumption].
      * right. exists c. split; [right |]; assumption.
Qed.

Lemma detect_craters_total (cv : cv2) (img : image) :
  exists detections, detect_craters cv img = Ok detections.
Proof. apply detect_loop_total. Qed.

Lemma emitted_kept (cv : cv2) (img : image) (d : detection) :
  emitted cv img d ->
  exists cnt, In cnt (find_contours cv img) /\ kept cv cnt d.
Proof.
  intros (out & Hrun & Hin).
  destruct (detect_loop_In _ _ _ _ _ Hrun Hin) as [[] | H]. exact H.
Qed.

(** Both semi-axes of an emitted record are not below 5. *)
Lemma kept_not_below_5 (cv : cv2) (cnt : contour) (d : detection) :
  kept cv cnt d ->
  flt_lt (semi_major d) (of_int 5) = false
  /\ flt_lt (semi_minor d) (of_int 5) = false.
Proof.
  intros K. apply kept_inv in K.
  destruct K as (cx & cy & major & minor & angle & _ & _ & H1 & H2 & ->).
  destruct (flt_gt minor major); cbn [semi_major semi_minor];
    split; apply half_not_below_5; assumption.
Qed.

(** ** Order of floats under halving *)


Lemma lt_asym (x y : pyfloat) : flt_lt x y = true -> flt_lt y x = false.
Proof.
  destruct x as [a | | |], y as [b | | |]; simpl; intros H; try reflexivity;
    try discriminate.
  apply Qltb_false. apply Qlt_le_weak. apply Qltb_lt. exact H.
Qed.

Lemma half_not_lt (x y : pyfloat) :
  flt_lt x y = false -> flt_lt (flt_half x) (flt_half y) = false.
Proof.
  destruct x as [a | | |], y as [b | | |]; simpl; intros H; try reflexivity;
    try discriminate.
  apply Qltb_false. apply Qhalf_le. apply Qltb_false. exact H.
Qed.

(** ** The detector's filters *)

Lemma small_axis_body (cv : cv2) (cnt : contour)
  (cx cy major minor angle : pyfloat) :
  fit cv cnt = ((cx, cy), (major, minor), angle) ->
  flt_lt major (of_int 10) = true \/ flt_lt minor (of_int 10) = true ->
  forall detections, detect_body cv cnt detections = Ok detections.
Proof.
  intros Hfit Hsmall detections. unfold detect_body, fitEllipse.
  destruct (Z.of_nat (List.length cnt) <? 5); [reflexivity |].
  cbn [bind]. rewrite Hfit.
  destruct Hsmall as [-> | ->]; [reflexivity |].
  rewrite orb_true_r. reflexivity.
Qed.

Lemma kept_not_lt (cv : cv2) (cnt : contour) (d : detection) :
  kept cv cnt d -> flt_lt (semi_major d) (semi_minor d) = false.
Proof.
  intros K. apply kept_inv in K.
  destruct K as (cx & cy & major & minor & angle & _ & _ & _ & _ & ->).
  unfold flt_gt. destruct (flt_lt major minor) eqn:E;
    cbn [semi_major semi_minor]; apply half_not_lt;
    [apply lt_asym |]; exact E.
Qed.

(** C5. A contour whose fit has a full axis length below 10 adds no record
    to the detections; in particular the fit (major = 8, minor = 20) is
    dropped; and no record the detector returns has its semi-major axis
    below its semi-minor axis. *)
Theorem small_axis_rejected :
  (forall (cv : cv2) (cnt : contour) (cx cy major minor angle : pyfloat),
      fit cv cnt = ((cx, cy), (major, minor), angle) ->
      flt_lt major (of_int 10) = true \/ flt_lt minor (of_int 10) = true ->
      (forall detections, detect_body cv cnt detections = Ok detections)
      /\ (forall rest detections,
            detect_loop cv (cnt :: rest) detections
            = detect_loop cv rest detections))
  /\ (forall (cv : cv2) (cnt : contour) (cx cy angle : pyfloat) detections,
        fit cv cnt = ((cx, cy), (of_int 8, of_int 20), angle) ->
        detect_body cv cnt detections = Ok detections)
  /\ (forall (cv : cv2) (img : image) (d : detection),
        emitted cv img d -> flt_lt (semi_major d) (semi_minor d) = false).
Proof.
  split; [| split].
  - intros cv cnt cx cy major minor angle Hfit Hsmall.
    pose proof (small_axis_body _ _ _ _ _ _ _ Hfit Hsmall) as H.
    split; [exact H |].
    intros rest detections. simpl. rewrite H. reflexivity.
  - intros cv cnt cx cy angle detections Hfit.
    apply (small_axis_body _ _ _ _ _ _ _ Hfit). left. reflexivity.
  - intros cv img d E.
    destruct (emitted_kept _ _ _ E) as (cnt & _ & K).
    exact (kept_not_lt _ _ _ K).
Qed.

Lemma small_axis_rejected_witness :
  fit (cv_stub [pentagon] rect_8_20) pentagon
  = ((dec 100 1, dec 100 1), (of_int 8, of_int 20), dec 0 1)
  /\ detect_body (cv_stub [pentagon] rect_8_20) pentagon [] = Ok []
  /\ detect_craters (cv_stub [pentagon] rect_8_20) [] = Ok [].
Proof.
  split; [reflexivity |]. split.
  - apply (proj1 (proj2 small_axis_rejected)
             (cv_stub [pentagon] rect_8_20) pentagon (dec 100 1) (dec 100 1)
             (dec 0 1) []).
    reflexivity.
  - reflexivity.
Defined.

(** C6. A contour of fewer than five points adds no record and raises
    nothing, although the fitting routine itself would raise on it; a
    contour of five points or more is handed to the fit, whose result then
    goes through the size filter; the detector as a whole always returns. *)
Theorem short_contour_skipped :
  (forall (cv : cv2) (cnt : contour),
      Z.of_nat (List.length cnt) < 5 ->
      fitEllipse cv cnt = Raise CvError
      /\ (forall detections, detect_body cv cnt detections = Ok detections)
      /\ (forall d, ~ kept cv cnt d))
  /\ (forall (cv : cv2) (cnt : contour) detections,
        5 <= Z.of_nat (List.length cnt) ->
        fitEllipse cv cnt = Ok (fit cv cnt)
        /\ detect_body cv cnt detections
           = (let '((cx, cy), (major, minor), angle) := fit cv cnt in
              if flt_lt major (of_int 10) || flt_lt minor (of_int 10)
              then Ok detections
              else if flt_gt minor major
              then Ok (detections
                       ++ [(cx, cy, flt_half minor, flt_half major, angle)])
              else Ok (detections
                       ++ [(cx, cy, flt_half major, flt_half minor, angle)])))
  /\ (forall (cv : cv2) (img : image),
        exists detections, detect_craters cv img = Ok detections).
Proof.
  split; [| split].
  - intros cv cnt Hlen.
    assert (Hb : forall detections, detect_body cv cnt detections = Ok detections).
    { intros detections. unfold detect_body.
      destruct (Z.ltb_spec (Z.of_nat (List.length cnt)) 5); [reflexivity | lia]. }
    split; [| split].
    + unfold fitEllipse.
      destruct (Z.ltb_spec (Z.of_nat (List.length cnt)) 5); [reflexivity | lia].
    + exact Hb.
    + intros d K. specialize (K []). rewrite Hb in K. discriminate.
  - intros cv cnt detections Hlen.
    split; [apply fitEllipse_ok; exact Hlen |].
    unfold detect_body. rewrite (fitEllipse_ok _ _ Hlen).
    destruct (Z.ltb_spec (Z.of_nat (List.length cnt)) 5); [lia |].
    cbn [bind].
    destruct (fit cv cnt) as [[[cx cy] [major minor]] angle].
    destruct (flt_lt major (of_int 10) || flt_lt minor (of_int 10));
      [reflexivity |].
    destruct (flt_gt minor major); reflexivity.
  - exact detect_craters_total.
Qed.

Lemma short_contour_skipped_witness :
  Z.of_nat (List.length triangle) < 5
  /\ fitEllipse (cv_stub [triangle] rect_reversed) triangle = Raise CvError
  /\ detect_body (cv_stub [triangle] rect_reversed) triangle [] = Ok []
  /\ 5 <= Z.of_nat (List.length pentagon)
  /\ fitEllipse (cv_stub [pentagon] rect_reversed) pentagon = Ok rect_reversed.
Proof.
  assert (H3 : Z.of_nat (List.length triangle) < 5) by (simpl; lia).
  assert (H5 : 5 <= Z.of_nat (List.length pentagon)) by (simpl; lia).
  pose proof (proj1 short_contour_skipped
                (cv_stub [triangle] rect_reversed) triangle H3) as (Hf & Hb & _).
  pose proof (proj1 (proj2 short_contour_skipped)
                (cv_stub [pentagon] rect_reversed) pentagon [] H5) as (Hp & _).
  exact (conj H3 (conj Hf (conj (Hb []) (conj H5 Hp)))).
Defined.

(** ** Axis order, size and rotation of emitted records *)

Lemma emitted_stub (rect : RotatedRect) (d : detection) :
  detect_craters (cv_stub [pentagon] rect) [] = Ok [d] ->
  emitted (cv_stub [pentagon] rect) [] d.
Proof. intros H. exists [d]. split; [exact H | left; reflexivity]. Qed.




(** C9. The angle of a record the detector returns is the angle the fit
    returned, also when the two lengths were swapped: then the semi-major
    axis is half the second fitted length, the semi-minor axis half the
    first, and the angle is still the fitted one. *)
Theorem rotation_unchanged (cv : cv2) (img : image) (d : detection) :
  emitted cv img d ->
  exists (cnt : contour) (cx cy major minor angle : pyfloat),
    In cnt (find_contours cv img)
    /\ fit cv cnt = ((cx, cy), (major, minor), angle)
    /\ rotation d = angle
    /\ (flt_gt minor major = true ->
        semi_major d = flt_half minor /\ semi_minor d = flt_half major
        /\ rotation d = angle).
Proof.
  intros E. destruct (emitted_kept _ _ _ E) as (cnt & Hin & K).
  destruct (kept_inv _ _ _ K)
    as (cx & cy & major & minor & angle & Hfit & _ & _ & _ & Hd).
  exists cnt, cx, cy, major, minor, angle.
  split; [exact Hin |]. split; [exact Hfit |].
  rewrite Hd. split.
  - destruct (flt_gt minor major); reflexivity.
  - intros ->. repeat split.
Qed.

Lemma rotation_unchanged_witness :
  emitted (cv_stub [pentagon] rect_reversed) [] det_reversed
  /\ flt_gt (dec 40 1) (dec 20 1) = true
  /\ semi_major det_reversed = flt_half (dec 40 1)
  /\ semi_minor det_reversed = flt_half (dec 20 1)
  /\ rotation det_reversed = dec 30 1.
Proof.
  assert (E : emitted (cv_stub [pentagon] rect_reversed) [] det_reversed)
    by (apply emitted_stub; reflexivity).
  split; [exact E |]. split; [reflexivity |].
  destruct (rotation_unchanged _ _ _ E)
    as (cnt & cx & cy & major & minor & angle & _ & Hfit & _ & Hswap).
  change (rect_reversed = ((cx, cy), (major, minor), angle)) in Hfit.
  injection Hfit as <- <- <- <- <-.
  apply Hswap. reflexivity.
Defined.



(** ** Strings and paths *)

Local Open Scope string_scope.

Lemma len_app (s t : string) : len (s ++ t) = len s + len t.
Proof.
  unfold len. induction s as [| a s IH]; [reflexivity |].
  cbn [append String.length]. rewrite !Nat2Z.inj_succ. lia.
Qed.

Lemma rfind_from_absent (c : ascii) (s : string) :
  contains c s = false -> forall i found, rfind_from c s i found = found.
Proof.
  induction s as [| a s IH]; intros H i found; [reflexivity |].
  simpl in *. apply orb_false_iff in H. destruct H as [-> H].
  apply IH. exact H.
Qed.

Lemma rfind_from_app (c : ascii) (s t : string) :
  forall i found,
    rfind_from c (s ++ t) i found
    = rfind_from c t (i + len s) (rfind_from c s i found).
Proof.
  induction s as [| a s IH]; intros i found.
  - simpl. f_equal. unfold len. simpl. lia.
  - cbn [append rfind_from]. rewrite IH. f_equal.
    unfold len. cbn [String.length]. lia.
Qed.

(** The last dot of [base.ext], when [ext] has no dot, is the one written. *)
Lemma rfind_dot (base ext : string) :
  contains "." ext = false ->
  rfind "." (base ++ "." ++ ext) = len base.
Proof.
  intros H. unfold rfind. rewrite rfind_from_app.
  cbn [append rfind_from]. rewrite Ascii.eqb_refl.
  rewrite (rfind_from_absent _ _ H). lia.
Qed.

Lemma substring_prefix (s t : string) :
  substring 0 (String.length s) (s ++ t) = s.
Proof.
  induction s as [| a s IH].
  - destruct t; reflexivity.
  - cbn [append String.length substring]. rewrite IH. reflexivity.
Qed.

Lemma contains_substring (c : ascii) (s : string) :
  contains c s = false -> forall n, contains c (substring 0 n s) = false.
Proof.
  induction s as [| a s IH]; intros H n.
  - destruct n; reflexivity.
  - simpl in H. apply orb_false_iff in H. destruct H as [Ha Hs].
    destruct n; [reflexivity |].
    cbn [substring contains]. rewrite Ha, (IH Hs). reflexivity.
Qed.

Lemma contains_stem (c : ascii) (nm : string) :
  contains c nm = false -> contains c (stem_of_name nm) = false.
Proof.
  intros H. unfold stem_of_name.
  destruct (_ && _); [apply contains_substring |]; exact H.
Qed.

(** [Path.stem] takes the extension off a name of the form [base.ext]. *)
Lemma stem_base_ext (base ext : string) :
  base <> "" -> ext <> "" -> contains "." ext = false ->
  stem_of_name (base ++ "." ++ ext) = base.
Proof.
  intros Hb He Hdot. unfold stem_of_name.
  rewrite (rfind_dot _ _ Hdot), len_app.
  assert (0 < len base) by (destruct base; [congruence | unfold len; simpl; lia]).
  assert (1 < len ("." ++ ext))
    by (destruct ext; [congruence | unfold len; simpl; lia]).
  destruct (Z.ltb_spec 0 (len base)); [| lia].
  destruct (Z.ltb_spec (len base) (len base + len ("." ++ ext) - 1)); [| lia].
  cbn [andb]. unfold len. rewrite Nat2Z.id. apply substring_prefix.
Qed.

Lemma split_on_absent (c : ascii) (s : string) :
  contains c s = false -> split_on c s = [s].
Proof.
  induction s as [| a s IH]; intros H; [reflexivity |].
  simpl in *. apply orb_false_iff in H. destruct H as [-> H].
  rewrite (IH H). reflexivity.
Qed.

Lemma split_on_app (c : ascii) (s t : string) :
  contains c s = false ->
  split_on c (s ++ String c t) = s :: split_on c t.
Proof.
  induction s as [| a s IH]; intros H.
  - simpl. rewrite Ascii.eqb_refl. reflexivity.
  - simpl in *. apply orb_false_iff in H. destruct H as [-> H].
    rewrite (IH H). reflexivity.
Qed.

Lemma relative_to_app (root p rel : Path) :
  relative_to p root = Ok rel -> p = (root ++ rel)%list.
Proof.
  revert p. induction root as [| r root IH]; intros p H.
  - destruct p; injection H as <-; reflexivity.
  - destruct p as [| x p]; [discriminate |]. simpl in *.
    destruct (String.eqb_spec x r) as [-> |]; [| discriminate].
    rewrite (IH _ H). reflexivity.
Qed.

Lemma name_app (root rel : Path) (nm : string) :
  name (root ++ rel ++ [nm])%list = nm.
Proof. unfold name. rewrite app_assoc. apply last_last. Qed.

(** ** The image identifier *)

(** C4. For an image at least two directory levels below the root, the
    identifier is the first two levels and the stem of the file name, joined
    by ['/']; when no component holds a ['/'] it splits into exactly these
    three segments; and the stem of a name [base.ext] is [base]. *)
Theorem identifier_three_segments
  (img_path root : Path) (d1 d2 : string) (dirs : list string) (nm : string) :
  relative_to img_path root = Ok (d1 :: d2 :: dirs ++ [nm])%list ->
  image_id_from_path img_path root
  = Ok (d1 ++ "/" ++ d2 ++ "/" ++ stem_of_name nm)
  /\ (contains "/" d1 = false -> contains "/" d2 = false ->
      contains "/" nm = false ->
      split_on "/" (d1 ++ "/" ++ d2 ++ "/" ++ stem_of_name nm)
      = [d1; d2; stem_of_name nm])
  /\ (forall base ext : string,
        nm = base ++ "." ++ ext ->
        base <> "" -> ext <> "" -> contains "." ext = false ->
        stem_of_name nm = base).
Proof.
  intros Hrel. split; [| split].
  - unfold image_id_from_path. rewrite Hrel. cbn [bind index nth_error].
    unfold stem. rewrite (relative_to_app _ _ _ Hrel).
    change (d1 :: d2 :: dirs ++ [nm])%list with ((d1 :: d2 :: dirs) ++ [nm])%list.
    rewrite name_app. reflexivity.
  - intros H1 H2 Hn.
    change (d1 ++ "/" ++ d2 ++ "/" ++ stem_of_name nm)
      with (d1 ++ String "/" (d2 ++ String "/" (stem_of_name nm))).
    rewrite (split_on_app _ _ _ H1), (split_on_app _ _ _ H2).
    rewrite (split_on_absent _ _ (contains_stem _ _ Hn)). reflexivity.
  - intros base ext -> Hb He Hdot. apply stem_base_ext; assumption.
Qed.

Lemma identifier_three_segments_witness :
  relative_to path_two_levels root_dir
  = Ok ["altitude01"; "longitude05"; "orientation01_light01.png"]
  /\ image_id_from_path path_two_levels root_dir
     = Ok "altitude01/longitude05/orientation01_light01"
  /\ split_on "/" "altitude01/longitude05/orientation01_light01"
     = ["altitude01"; "longitude05"; "orientation01_light01"].
Proof.
  assert (H : relative_to path_two_levels root_dir
              = Ok ("altitude01" :: "longitude05"
                      :: [] ++ ["orientation01_light01.png"])%list)
    by reflexivity.
  pose proof (identifier_three_segments _ _ _ _ _ _ H) as (Hid & Hsplit & _).
  split; [exact H |]. split; [exact Hid |].
  apply Hsplit; reflexivity.
Defined.

(** C3, as the code has it.  Given the path relative to the root, the
    derivation raises [IndexError] exactly when that path has fewer than two
    components, which is the case of a file directly under the root; with
    one directory before the file name it returns an identifier whose second
    segment is the file name with its extension. *)
Theorem identifier_failure (img_path root rel : Path) :
  relative_to img_path root = Ok rel ->
  ((List.length rel < 2)%nat
   <-> image_id_from_path img_path root = Raise IndexError)
  /\ (forall d f : string,
        rel = [d; f] ->
        image_id_from_path img_path root
        = Ok (d ++ "/" ++ f ++ "/" ++ stem_of_name f)).
Proof.
  intros Hrel. unfold image_id_from_path. rewrite Hrel. cbn [bind].
  split.
  - destruct rel as [| p0 [| p1 rel']]; cbn [index nth_error bind List.length].
    + split; [reflexivity | lia].
    + split; [reflexivity | lia].
    + split; [lia | discriminate].
  - intros d f ->. cbn [index nth_error bind].
    unfold stem. rewrite (relative_to_app _ _ _ Hrel).
    change [d; f] with ([d] ++ [f])%list. rewrite name_app. reflexivity.
Qed.

Lemma identifier_failure_witness :
  relative_to path_no_level root_dir = Ok ["img.png"]
  /\ ((List.length ["img.png"] < 2)%nat
      <-> image_id_from_path path_no_level root_dir = Raise IndexError)
  /\ image_id_from_path path_no_level root_dir = Raise IndexError.
Proof.
  assert (H : relative_to path_no_level root_dir = Ok ["img.png"])
    by reflexivity.
  pose proof (identifier_failure _ _ _ H) as [Hiff _].
  split; [exact H |]. split; [exact Hiff |].
  apply Hiff. simpl. lia.
Defined.

(** C3 as stated fails: with a single directory between the root and the
    file, fewer than two, the derivation does not fail but returns an
    identifier made of the directory, the file name and the stem. *)
Lemma one_level_path_yields_identifier :
  relative_to path_one_level root_dir = Ok ["altitude01"; "img.png"]
  /\ image_id_from_path path_one_level root_dir
     = Ok "altitude01/img.png/img".
Proof. split; reflexivity. Qed.

(** ** Writing the rows *)

Local Close Scope string_scope.

Lemma write_detections_rows (image_id : string) (detections : list detection) :
  forall file,
    write_detections image_id detections file
    = (Ok tt, file ++ map (detection_row image_id) detections).
Proof.
  induction detections as [| d rest IH]; intros file; simpl.
  - unfold io_ret. rewrite app_nil_r. reflexivity.
  - unfold io_bind, writerow. rewrite IH, <- app_assoc. reflexivity.
Qed.

Lemma write_rows_empty (image_id : string) (file : csv_file) :
  write_rows image_id [] file = (Ok tt, file ++ [sentinel_row image_id]).
Proof. reflexivity. Qed.

Lemma write_rows_nonempty (image_id : string) (detections : list detection)
  (file : csv_file) :
  detections <> [] ->
  write_rows image_id detections file
  = (Ok tt, file ++ map (detection_row image_id) detections).
Proof.
  intros H. unfold write_rows.
  destruct detections as [| d rest]; [congruence |].
  destruct (Z.eqb_spec (Z.of_nat (List.length (d :: rest))) 0) as [E |];
    [simpl in E; lia |].
  apply write_detections_rows.
Qed.

(** What one image adds to the file does not depend on the rows already
    written. *)
Lemma process_image_block (cv : cv2) (root p : Path) :
  exists (r : result unit) (block : list row),
    forall file, process_image cv root p file = (r, file ++ block).
Proof.
  unfold process_image.
  destruct (imread cv p) as [img |].
  - unfold io_bind, io_lift.
    destruct (image_id_from_path p root) as [image_id | e].
    + destruct (detect_craters cv img) as [detections | e].
      * destruct detections as [| d rest].
        -- exists (Ok tt), [sentinel_row image_id]. intros file. reflexivity.
        -- exists (Ok tt), (map (detection_row image_id) (d :: rest)).
           intros file. apply write_rows_nonempty. discriminate.
      * exists (Raise e), []. intros file. rewrite app_nil_r. reflexivity.
    + exists (Raise e), []. intros file. rewrite app_nil_r. reflexivity.
  - exists (Ok tt), []. intros file. unfold io_ret. rewrite app_nil_r.
    reflexivity.
Qed.

Lemma detection_row_image (image_id : string) (d : detection) :
  row_image (detection_row image_id d) = Some image_id.
Proof. destruct d as [[[[cx cy] a] b] angle]. reflexivity. Qed.

Lemma detection_row_not_sentinel (image_id : string) (d : detection) :
  flt_lt (semi_major d) (of_int 5) = false ->
  is_sentinel (detection_row image_id d) = false.
Proof.
  destruct d as [[[[cx cy] a] b] angle]. cbn [semi_major]. intros H.
  unfold detection_row, is_sentinel.
  rewrite (rounded_not_minus_one _ H).
  rewrite !andb_false_r. reflexivity.
Qed.

(** C1. For an image that decodes and whose identifier is derived, the loop
    body appends one block of rows to the file.  With no detection the block
    is the single sentinel row of that identifier; otherwise it holds one
    row per detection, in order, each carrying the identifier and none of
    them a sentinel row. *)
Theorem rows_for_image
  (cv : cv2) (root p : Path) (img : image) (image_id : string)
  (file : csv_file) :
  imread cv p = Some img ->
  image_id_from_path p root = Ok image_id ->
  exists (detections : list detection) (block : list row),
    detect_craters cv img = Ok detections
    /\ process_image cv root p file = (Ok tt, file ++ block)
    /\ (detections = [] ->
        block = [sentinel_row image_id]
        /\ is_sentinel (sentinel_row image_id) = true
        /\ row_image (sentinel_row image_id) = Some image_id)
    /\ (detections <> [] ->
        block = map (detection_row image_id) detections
        /\ List.length block = List.length detections
        /\ Forall (fun r => row_image r = Some image_id
                            /\ is_sentinel r = false) block).
Proof.
  intros Hread Hid.
  destruct (detect_craters_total cv img) as [detections Hdet].
  exists detections.
  exists (match detections with
          | [] => [sentinel_row image_id]
          | _ => map (detection_row image_id) detections
          end).
  split; [exact Hdet |]. split; [| split].
  - unfold process_image. rewrite Hread.
    unfold io_bind, io_lift. rewrite Hid, Hdet.
    destruct detections as [| d rest]; [reflexivity |].
    apply write_rows_nonempty. discriminate.
  - intros ->. repeat split.
  - intros Hne. destruct detections as [| d rest]; [congruence |].
    split; [reflexivity |]. split; [apply length_map |].
    apply Forall_forall. intros r Hr.
    apply in_map_iff in Hr. destruct Hr as (d' & <- & Hin).
    split; [apply detection_row_image |].
    apply detection_row_not_sentinel.
    assert (E : emitted cv img d') by (exists (d :: rest); split; assumption).
    destruct (emitted_kept _ _ _ E) as (cnt & _ & K).
    apply (kept_not_below_5 _ _ _ K).
Qed.

Lemma rows_for_image_witness :
  imread (cv_stub [triangle] rect_center) path_two_levels = Some []
  /\ image_id_from_path path_two_levels root_dir
     = Ok "altitude01/longitude05/orientation01_light01"%string
  /\ process_image (cv_stub [triangle] rect_center) root_dir path_two_levels
       [header]
     = (Ok tt,
        [header;
         sentinel_row "altitude01/longitude05/orientation01_light01"])
  /\ process_image (cv_stub [pentagon; triangle; pentagon] rect_center)
       root_dir path_two_levels [header]
     = (Ok tt,
        [header;
         detection_row "altitude01/longitude05/orientation01_light01"
           det_center;
         detection_row "altitude01/longitude05/orientation01_light01"
           det_center]).
Proof.
  assert (Hid : image_id_from_path path_two_levels root_dir
                = Ok "altitude01/longitude05/orientation01_light01"%string)
    by reflexivity.
  split; [reflexivity |]. split; [exact Hid |]. split.
  - destruct (rows_for_image (cv_stub [triangle] rect_center) root_dir
                path_two_levels [] _ [header] eq_refl Hid)
      as (detections & block & Hdet & Hrun & Hnone & _).
    injection Hdet as <-.
    destruct (Hnone eq_refl) as (-> & _). exact Hrun.
  - destruct (rows_for_image
                (cv_stub [pentagon; triangle; pentagon] rect_center) root_dir
                path_two_levels [] _ [header] eq_refl Hid)
      as (detections & block & Hdet & Hrun & _ & Hsome).
    injection Hdet as <-.
    destruct (Hsome ltac:(discriminate)) as (-> & _). exact Hrun.
Defined.



(** ** The whole run *)

(** An image that does not decode is skipped: nothing is written for it. *)
Lemma process_image_undecoded (cv : cv2) (root p : Path) (file : csv_file) :
  imread cv p = None -> process_image cv root p file = (Ok tt, file).
Proof. intros H. unfold process_image. rewrite H. reflexivity. Qed.

(** A dataset of one image with two fitted contours: the header and two
    rows. *)
Example main_two_rows :
  main (cv_stub [pentagon; triangle; pentagon] rect_center) root_dir
    [path_two_levels] []
  = (Ok tt,
     [header;
      detection_row "altitude01/longitude05/orientation01_light01" det_center;
      detection_row "altitude01/longitude05/orientation01_light01" det_center]).
Proof. reflexivity. Qed.

(** A file directly under the root stops the run with [IndexError]; the rows
    written before it stay. *)
Example main_stops_on_shallow_path :
  main (cv_stub [triangle] rect_center) root_dir
    [path_two_levels; path_no_level; path_two_levels] []
  = (Raise IndexError,
     [header; sentinel_row "altitude01/longitude05/orientation01_light01"]).
Proof. reflexivity. Qed.

(** ** Collecting the images *)

(** Induction on a directory content, with the property at hand for the
    content of every sub-directory listed. *)
Lemma entries_induction (P : list entry -> Prop) :
  (forall entries,
      (forall nm sub, In (Directory nm sub) entries -> P sub) -> P entries) ->
  forall entries, P entries.
Proof.
  intros step.
  assert (Hentry : forall e,
             match e with File _ => True | Directory _ sub => P sub end).
  { fix IH 1. intros [nm | nm sub]; [exact I |].
    apply step. intros nm' sub' Hin.
    induction sub as [| e rest IHrest]; [destruct Hin |].
    pose proof (IH e) as He.
    destruct Hin as [Heq | Hin]; [| exact (IHrest Hin)].
    rewrite Heq in He. exact He. }
  intros entries. apply step. intros nm sub Hin.
  exact (Hentry (Directory nm sub)).
Qed.

Lemma filenames_In (entries : list entry) (f : string) :
  In f (filenames entries) <-> In (File f) entries.
Proof.
  unfold filenames. rewrite in_flat_map. split.
  - intros ([nm | nm sub] & Hin & Hf); [| destruct Hf].
    destruct Hf as [<- | []]. exact Hin.
  - intros Hin. exists (File f). split; [exact Hin | left; reflexivity].
Qed.

Lemma collect_images_unfold (top : Path) (entries : list entry) :
  collect_images top entries
  = (map (fun f => top ++ [f]) (filter has_image_extension (filenames entries))
     ++ flat_map
          (fun e => match e with
                    | File _ => []
                    | Directory nm sub => collect_images (top ++ [nm]) sub
                    end) entries)%list.
Proof.
  set (below := fun e => match e with
                        | File _ => []
                        | Directory nm sub => collect_images (top ++ [nm]) sub
                        end).
  unfold collect_images at 1, walk. cbn [flat_map]. f_equal.
  induction entries as [| e rest IH]; [reflexivity |].
  cbn [flat_map]. rewrite flat_map_app.
  apply f_equal2; [destruct e as [nm | nm sub]; reflexivity | exact IH].
Qed.

(** The paths collected are exactly the files with an image extension found
    somewhere under the root, each written as the root, the directories
    gone down, and the file name. *)
Lemma collect_images_In (entries : list entry) :
  forall (top p : Path),
    In p (collect_images top entries)
    <-> exists (dirs : list string) (f : string),
        p = (top ++ dirs ++ [f])%list
        /\ file_at entries dirs f
        /\ has_image_extension f = true.
Proof.
  induction entries as [entries IH] using entries_induction.
  intros top p. rewrite collect_images_unfold, in_app_iff. split.
  - intros [Hhere | Hbelow].
    + apply in_map_iff in Hhere. destruct Hhere as (f & <- & Hf).
      apply filter_In in Hf. destruct Hf as [Hf Hext].
      exists [], f. split; [reflexivity |]. split; [| exact Hext].
      apply file_here. apply filenames_In. exact Hf.
    + apply in_flat_map in Hbelow.
      destruct Hbelow as ([nm | nm sub] & Hin & Hp); [destruct Hp |].
      apply (IH nm sub Hin) in Hp. destruct Hp as (dirs & f & -> & Hat & Hext).
      exists (nm :: dirs), f. split; [| split; [| exact Hext]].
      * rewrite <- app_assoc. reflexivity.
      * exact (file_below _ _ _ _ _ Hin Hat).
  - intros (dirs & f & -> & Hat & Hext).
    inversion Hat as [es f' Hin | es sub nm dirs' f' Hin Hsub]; subst.
    + left. apply in_map_iff. exists f. split; [reflexivity |].
      apply filter_In. split; [apply filenames_In; exact Hin | exact Hext].
    + right. apply in_flat_map. exists (Directory nm sub).
      split; [exact Hin |]. apply (IH nm sub Hin).
      exists dirs', f. split; [| split; assumption].
      rewrite <- app_assoc. reflexivity.
Qed.

(** ** Names with an image extension *)

Local Open Scope string_scope.

Lemma lower_ascii_dot (a : ascii) :
  Ascii.eqb (lower_ascii a) "." = Ascii.eqb a ".".
Proof.
  destruct a as [[] [] [] [] [] [] [] []]; reflexivity.
Qed.

Lemma contains_dot_lower (s : string) :
  contains "." (lower s) = contains "." s.
Proof.
  induction s as [| a s IH]; [reflexivity |].
  cbn [lower contains]. rewrite lower_ascii_dot, IH. reflexivity.
Qed.

Lemma endswith_suffix (s suffix : string) :
  endswith s suffix = true <-> exists pre, s = pre ++ suffix.
Proof.
  induction s as [| a s IH].
  - cbn [endswith]. rewrite orb_false_r. split.
    + intros H. apply String.eqb_eq in H. exists "". exact H.
    + intros ([| b pre] & H); [| discriminate].
      apply String.eqb_eq. exact H.
  - cbn [endswith]. rewrite orb_true_iff, IH, String.eqb_eq. split.
    + intros [H | (pre & ->)].
      * exists "". exact H.
      * exists (String a pre). reflexivity.
    + intros ([| b pre] & H).
      * left. exact H.
      * right. injection H as _ ->. exists pre. reflexivity.
Qed.

Lemma lower_split (pre e : string) :
  forall s, lower s = pre ++ e ->
            exists base ext, s = base ++ ext /\ lower base = pre /\ lower ext = e.
Proof.
  induction pre as [| c pre IH]; intros s H.
  - exists "", s. repeat split. exact H.
  - destruct s as [| a s]; [discriminate |].
    cbn [lower append] in H. injection H as Ha Hs.
    destruct (IH _ Hs) as (base & ext & -> & Hb & He).
    exists (String a base), ext. cbn [lower append]. rewrite Ha, Hb.
    repeat split. exact He.
Qed.

Lemma extension_shape (e : string) :
  In e IMAGE_EXTENSIONS ->
  exists r, e = String "." r /\ r <> "" /\ contains "." r = false.
Proof.
  intros H. unfold IMAGE_EXTENSIONS in H. cbn [In] in H.
  repeat (destruct H as [<- | H];
          [eexists; split; [reflexivity | split; [discriminate | reflexivity]] |]).
  destruct H.
Qed.

Lemma rfind_leading_dot (r : string) :
  contains "." r = false -> rfind "." (String "." r) = 0.
Proof. intros H. exact (rfind_dot "" r H). Qed.

Lemma lower_app (s t : string) : lower (s ++ t) = lower s ++ lower t.
Proof.
  induction s as [| a s IH]; [reflexivity |].
  cbn [append lower]. rewrite IH. reflexivity.
Qed.

(** X4. The extension test and the stem.  A name passes the test of
    [collect_images] exactly when it is some [base] followed by an
    extension that lowers to one of the five listed; the stem of such a
    name is [base], except that a name made of the extension alone (such as
    [.png]) is its own stem. *)
Theorem image_name_stem (nm : string) :
  has_image_extension nm = true
  <-> exists base ext : string,
      nm = base ++ ext
      /\ In (lower ext) IMAGE_EXTENSIONS
      /\ (base <> "" -> stem_of_name nm = base)
      /\ (base = "" -> stem_of_name nm = nm).
Proof.
  split.
  - intros H. unfold has_image_extension in H.
    apply existsb_exists in H. destruct H as (e & He & Hend).
    apply endswith_suffix in Hend. destruct Hend as (pre & Hlow).
    destruct (lower_split _ _ _ Hlow) as (base & ext & -> & _ & Hext).
    exists base, ext. split; [reflexivity |].
    split; [rewrite Hext; exact He |].
    destruct (extension_shape _ He) as (r & -> & Hr & Hdot).
    destruct ext as [| c x]; [discriminate |].
    cbn [lower] in Hext. injection Hext as Hc Hx.
    assert (c = "."%char) as ->.
    { apply Ascii.eqb_eq. rewrite <- lower_ascii_dot, Hc. reflexivity. }
    assert (Hx0 : x <> "") by (intros ->; apply Hr; symmetry; exact Hx).
    assert (Hxdot : contains "." x = false)
      by (rewrite <- contains_dot_lower, Hx; exact Hdot).
    split.
    + intros Hb. apply (stem_base_ext base x Hb Hx0 Hxdot).
    + intros ->. cbn [append]. unfold stem_of_name.
      rewrite (rfind_leading_dot _ Hxdot). reflexivity.
  - intros (base & ext & -> & Hin & _).
    unfold has_image_extension. apply existsb_exists.
    exists (lower ext). split; [exact Hin |].
    apply endswith_suffix. exists (lower base). apply lower_app.
Qed.

(** ** Paths under the root *)

Lemma relative_to_under (root rel : Path) :
  relative_to (root ++ rel)%list root = Ok rel.
Proof.
  induction root as [| r root IH]; [destruct rel; reflexivity |].
  cbn [app relative_to]. rewrite String.eqb_refl. exact IH.
Qed.

Lemma relative_to_raises (root : Path) :
  forall (p : Path) (e : pyexn), relative_to p root = Raise e -> e = ValueError.
Proof.
  induction root as [| r root IH]; intros p e H.
  - destruct p; discriminate.
  - destruct p as [| x p]; cbn [relative_to] in H; [congruence |].
    destruct (String.eqb x r); [exact (IH _ _ H) | congruence].
Qed.

Lemma image_id_of_rel (p root rel : Path) :
  relative_to p root = Ok rel ->
  image_id_from_path p root
  = match rel with
    | d1 :: d2 :: _ => Ok (d1 ++ "/" ++ d2 ++ "/" ++ stem p)
    | _ => Raise IndexError
    end.
Proof.
  intros H. unfold image_id_from_path. rewrite H. cbn [bind].
  destruct rel as [| d1 [| d2 rest]]; reflexivity.
Qed.

Lemma last_after (l1 l2 : Path) (d : string) :
  l2 <> [] -> last (l1 ++ l2)%list d = last l2 d.
Proof.
  intros H. induction l1 as [| x l1 IH]; [reflexivity |].
  cbn [app]. rewrite <- IH.
  destruct (l1 ++ l2)%list eqn:E; [| reflexivity].
  apply app_eq_nil in E. destruct E as [_ E]. contradiction.
Qed.

(** X5. [relative_to] undoes joining.  A path made of [root] followed by
    [rel] is relative to [root] by [rel]; when [relative_to] returns [rel],
    the path is [rel] after as many components as [root] has; and the only
    exception it raises is [ValueError]. *)
Theorem relative_to_join :
  (forall root rel, relative_to (root ++ rel)%list root = Ok rel)
  /\ (forall p root rel,
        relative_to p root = Ok rel ->
        exists pre, p = (pre ++ rel)%list
                    /\ List.length pre = List.length root)
  /\ (forall p root e, relative_to p root = Raise e -> e = ValueError).
Proof.
  split; [exact relative_to_under |]. split.
  - intros p root rel H. exists root.
    split; [apply relative_to_app; exact H | reflexivity].
  - intros p root e H. exact (relative_to_raises _ _ _ H).
Qed.

(** X6. All outcomes of the identifier derivation.  When [relative_to]
    raises, the derivation raises [ValueError]; when the relative path has
    fewer than two components (the root itself, or a file directly in it)
    it raises [IndexError]; otherwise it returns the first two components
    of the relative path and the stem of the last, whatever lies between. *)
Theorem identifier_outcomes (p root : Path) :
  (forall e, relative_to p root = Raise e ->
             image_id_from_path p root = Raise ValueError)
  /\ (forall rel, relative_to p root = Ok rel ->
                  (List.length rel < 2)%nat ->
                  image_id_from_path p root = Raise IndexError)
  /\ (forall d1 d2 rest,
        relative_to p root = Ok (d1 :: d2 :: rest) ->
        image_id_from_path p root
        = Ok (d1 ++ "/" ++ d2 ++ "/" ++ stem_of_name (last (d2 :: rest) ""))).
Proof.
  split; [| split].
  - intros e H. pose proof (relative_to_raises _ _ _ H) as ->.
    unfold image_id_from_path. rewrite H. reflexivity.
  - intros rel H Hlen. rewrite (image_id_of_rel _ _ _ H).
    destruct rel as [| d1 [| d2 rest]]; [reflexivity | reflexivity |].
    simpl in Hlen. lia.
  - intros d1 d2 rest H. rewrite (image_id_of_rel _ _ _ H).
    unfold stem, name. rewrite (relative_to_app _ _ _ H).
    rewrite (last_after root (d1 :: d2 :: rest)) by discriminate.
    reflexivity.
Qed.

Lemma identifier_outcomes_witness :
  relative_to ["elsewhere"; "img.png"] root_dir = Raise ValueError
  /\ image_id_from_path ["elsewhere"; "img.png"] root_dir = Raise ValueError
  /\ relative_to root_dir root_dir = Ok []
  /\ image_id_from_path root_dir root_dir = Raise IndexError
  /\ relative_to ["root"; "a"; "b"; "c"; "x.tiff"] root_dir
     = Ok ["a"; "b"; "c"; "x.tiff"]
  /\ image_id_from_path ["root"; "a"; "b"; "c"; "x.tiff"] root_dir
     = Ok "a/b/x".
Proof.
  split; [reflexivity |].
  split; [exact (proj1 (identifier_outcomes ["elsewhere"; "img.png"] root_dir)
                   ValueError eq_refl) |].
  split; [reflexivity |].
  split; [apply (proj1 (proj2 (identifier_outcomes root_dir root_dir)) []);
          [reflexivity | simpl; lia] |].
  split; [reflexivity |].
  exact (proj2 (proj2 (identifier_outcomes
                         ["root"; "a"; "b"; "c"; "x.tiff"] root_dir))
           "a" "b" ["c"; "x.tiff"] eq_refl).
Defined.

(** X1. What [collect_images] returns.  A path is collected exactly when it
    is the root, then the directories gone down, then the name of a file
    listed there that passes the extension test. *)
Theorem collected_paths (entries : list entry) (top p : Path) :
  In p (collect_images top entries)
  <-> exists (dirs : list string) (f : string),
      p = (top ++ dirs ++ [f])%list
      /\ file_at entries dirs f
      /\ has_image_extension f = true.
Proof. apply collect_images_In. Qed.

Lemma collected_identifier_cases (entries : list entry) (root p : Path) :
  In p (collect_images root entries) ->
  (exists f, In (File f) entries /\ has_image_extension f = true
             /\ p = (root ++ [f])%list
             /\ image_id_from_path p root = Raise IndexError)
  \/ (exists d dirs f,
        file_at entries (d :: dirs) f /\ has_image_extension f = true
        /\ p = (root ++ d :: dirs ++ [f])%list
        /\ image_id_from_path p root
           = Ok (d ++ "/" ++ hd f dirs ++ "/" ++ stem_of_name f)).
Proof.
  intros Hin. apply collect_images_In in Hin.
  destruct Hin as (dirs & f & -> & Hat & Hext).
  rewrite (image_id_of_rel _ _ _ (relative_to_under root (dirs ++ [f])%list)).
  destruct dirs as [| d dirs].
  - left. exists f. inversion Hat; subst. repeat split; assumption.
  - right. exists d, dirs, f. split; [exact Hat |]. split; [exact Hext |].
    split; [reflexivity |].
    unfold stem. rewrite name_app.
    destruct dirs as [| d2 dirs]; reflexivity.
Qed.

(** X2. Identifiers of collected images.  For a path returned by
    [collect_images] the derivation never raises [ValueError]: it raises
    [IndexError] when the file lies directly in the root, and otherwise
    returns the first directory, the second component (a directory, or the
    file name itself when there is only one directory) and the stem. *)
Theorem collected_identifier (entries : list entry) (root p : Path) :
  In p (collect_images root entries) ->
  (exists f, In (File f) entries /\ has_image_extension f = true
             /\ p = (root ++ [f])%list
             /\ image_id_from_path p root = Raise IndexError)
  \/ (exists d dirs f,
        file_at entries (d :: dirs) f /\ has_image_extension f = true
        /\ p = (root ++ d :: dirs ++ [f])%list
        /\ image_id_from_path p root
           = Ok (d ++ "/" ++ hd f dirs ++ "/" ++ stem_of_name f)).
Proof. apply collected_identifier_cases. Qed.

Lemma collected_identifier_witness :
  In ["root"; "altitude01"; "longitude05"; "extra"; "deep.jpeg"]
    (collect_images root_dir tree_example)
  /\ image_id_from_path
       ["root"; "altitude01"; "longitude05"; "extra"; "deep.jpeg"] root_dir
     = Ok "altitude01/longitude05/deep"
  /\ In ["root"; "top.tif"] (collect_images root_dir tree_example)
  /\ image_id_from_path ["root"; "top.tif"] root_dir = Raise IndexError.
Proof.
  assert (H1 : In ["root"; "altitude01"; "longitude05"; "extra"; "deep.jpeg"]
                 (collect_images root_dir tree_example))
    by (right; right; left; reflexivity).
  assert (H2 : In ["root"; "top.tif"] (collect_images root_dir tree_example))
    by (left; reflexivity).
  split; [exact H1 |]. split.
  - destruct (collected_identifier _ _ _ H1)
      as [(f & _ & _ & _ & Hid) | (d & dirs & f & _ & _ & Hp & Hid)];
      [discriminate Hid |].
    cbn [root_dir app] in Hp. injection Hp as <- Hp.
    change ["longitude05"; "extra"; "deep.jpeg"]
      with (["longitude05"; "extra"] ++ ["deep.jpeg"])%list in Hp.
    apply app_inj_tail in Hp. destruct Hp as [<- <-]. exact Hid.
  - split; [exact H2 |].
    destruct (collected_identifier _ _ _ H2)
      as [(f & _ & _ & _ & Hid) | (d & dirs & f & _ & _ & _ & Hid)];
      [exact Hid | discriminate Hid].
Defined.

(** X3. Identifiers do not tell apart files that differ only in their
    extension or in the directories below the second level: two paths with
    the same first two directories and names [base.e1], [base.e2] get the
    same identifier. *)
Theorem identifier_collision
  (p1 p2 root : Path) (d1 d2 : string) (dirs1 dirs2 : list string)
  (base e1 e2 : string) :
  relative_to p1 root = Ok (d1 :: d2 :: dirs1 ++ [(base ++ "." ++ e1)%string])%list ->
  relative_to p2 root = Ok (d1 :: d2 :: dirs2 ++ [(base ++ "." ++ e2)%string])%list ->
  base <> "" ->
  e1 <> "" -> contains "." e1 = false ->
  e2 <> "" -> contains "." e2 = false ->
  image_id_from_path p1 root = Ok (d1 ++ "/" ++ d2 ++ "/" ++ base)
  /\ image_id_from_path p2 root = image_id_from_path p1 root.
Proof.
  intros H1 H2 Hb He1 Hd1 He2 Hd2.
  rewrite (image_id_of_rel _ _ _ H1), (image_id_of_rel _ _ _ H2).
  unfold stem.
  rewrite (relative_to_app _ _ _ H1), (relative_to_app _ _ _ H2).
  change (d1 :: d2 :: dirs1 ++ [(base ++ "." ++ e1)%string])%list
    with ((d1 :: d2 :: dirs1) ++ [(base ++ "." ++ e1)%string])%list.
  change (d1 :: d2 :: dirs2 ++ [(base ++ "." ++ e2)%string])%list
    with ((d1 :: d2 :: dirs2) ++ [(base ++ "." ++ e2)%string])%list.
  rewrite !name_app, !stem_base_ext by assumption.
  split; reflexivity.
Qed.

Lemma identifier_collision_witness :
  image_id_from_path ["root"; "a"; "b"; "x.png"] root_dir = Ok "a/b/x"
  /\ image_id_from_path ["root"; "a"; "b"; "c"; "x.jpg"] root_dir
     = image_id_from_path ["root"; "a"; "b"; "x.png"] root_dir.
Proof.
  apply (identifier_collision
           ["root"; "a"; "b"; "x.png"] ["root"; "a"; "b"; "c"; "x.jpg"]
           root_dir "a" "b" [] ["c"] "x" "png" "jpg");
    try reflexivity; discriminate.
Defined.

(** ** More on the contour loop *)

Local Close Scope string_scope.

(** What a list of contours adds does not depend on what was detected
    before. *)
Lemma detect_loop_added (cv : cv2) (contours : list contour) :
  exists added,
    forall detections,
      detect_loop cv contours detections = Ok (detections ++ added).
Proof.
  induction contours as [| cnt rest (added & IH)].
  - exists []. intros detections. simpl. rewrite app_nil_r. reflexivity.
  - destruct (detect_body_shape cv cnt) as [H | [d K]].
    + exists added. intros detections. simpl. rewrite H. apply IH.
    + exists (d :: added). intros detections. simpl.
      rewrite (K detections). cbn [bind]. rewrite IH, <- app_assoc.
      reflexivity.
Qed.

Lemma detect_loop_app (cv : cv2) (cs1 cs2 : list contour) :
  forall detections,
    detect_loop cv (cs1 ++ cs2) detections
    = (do mid <- detect_loop cv cs1 detections; detect_loop cv cs2 mid).
Proof.
  induction cs1 as [| cnt rest IH]; intros detections; [reflexivity |].
  simpl. destruct (detect_body cv cnt detections) as [mid | e];
    [apply IH | reflexivity].
Qed.

(** X7. Detections come in contour order and contour by contour: what the
    loop returns for two lists of contours in a row is what it returns for
    the first followed by what it returns for the second. *)
Theorem detections_follow_contours
  (cv : cv2) (cs1 cs2 : list contour) (out1 out2 : list detection) :
  detect_loop cv cs1 [] = Ok out1 ->
  detect_loop cv cs2 [] = Ok out2 ->
  detect_loop cv (cs1 ++ cs2) [] = Ok (out1 ++ out2).
Proof.
  intros H1 H2. rewrite detect_loop_app, H1. cbn [bind].
  destruct (detect_loop_added cv cs2) as (added & Hadd).
  rewrite Hadd in H2. injection H2 as <-. apply Hadd.
Qed.

Lemma detections_follow_contours_witness :
  detect_loop (cv_stub [] rect_center) [pentagon; triangle] [] = Ok [det_center]
  /\ detect_loop (cv_stub [] rect_center) [pentagon] [] = Ok [det_center]
  /\ detect_loop (cv_stub [] rect_center)
       ([pentagon; triangle] ++ [pentagon]) []
     = Ok ([det_center] ++ [det_center]).
Proof.
  split; [reflexivity |]. split; [reflexivity |].
  apply detections_follow_contours; reflexivity.
Defined.

Lemma detect_loop_length (cv : cv2) (contours : list contour) :
  forall detections out,
    detect_loop cv contours detections = Ok out ->
    (List.length detections <= List.length out
     <= List.length detections + List.length (filter long_enough contours))%nat.
Proof.
  induction contours as [| cnt rest IH]; intros detections out; simpl.
  - intros [= <-]. lia.
  - destruct (detect_body_shape cv cnt) as [H | [d K]].
    + rewrite H. cbn [bind]. intros Hl. specialize (IH _ _ Hl).
      destruct (long_enough cnt); simpl; lia.
    + rewrite (K detections). cbn [bind]. intros Hl. specialize (IH _ _ Hl).
      rewrite length_app in IH. cbn [List.length] in IH.
      destruct (kept_inv _ _ _ K) as (_ & _ & _ & _ & _ & _ & Hlen & _).
      unfold long_enough at 1.
      destruct (Z.leb_spec 5 (Z.of_nat (List.length cnt))); [| lia].
      simpl. lia.
Qed.

(** X8. The detector returns at most one record per contour of five points
    or more. *)
Theorem detections_bounded (cv : cv2) (img : image) (out : list detection) :
  detect_craters cv img = Ok out ->
  (List.length out <= List.length (filter long_enough (find_contours cv img))
   <= List.length (find_contours cv img))%nat.
Proof.
  intros H. apply detect_loop_length in H. cbn [List.length] in H.
  split; [lia | apply filter_length_le].
Qed.

Lemma detections_bounded_witness :
  detect_craters (cv_stub [pentagon; triangle; pentagon] rect_center) []
  = Ok [det_center; det_center]
  /\ (List.length [det_center; det_center]
      <= List.length
           (filter long_enough
              (find_contours
                 (cv_stub [pentagon; triangle; pentagon] rect_center) []))
      <= List.length
           (find_contours
              (cv_stub [pentagon; triangle; pentagon] rect_center) []))%nat.
Proof.
  split; [reflexivity |].
  apply (detections_bounded
           (cv_stub [pentagon; triangle; pentagon] rect_center) []).
  reflexivity.
Defined.

Lemma kept_intro (cv : cv2) (cnt : contour) (cx cy major minor angle : pyfloat) :
  5 <= Z.of_nat (List.length cnt) ->
  fit cv cnt = ((cx, cy), (major, minor), angle) ->
  flt_lt major (of_int 10) = false ->
  flt_lt minor (of_int 10) = false ->
  kept cv cnt (if flt_gt minor major
               then (cx, cy, flt_half minor, flt_half major, angle)
               else (cx, cy, flt_half major, flt_half minor, angle)).
Proof.
  intros Hlen Hfit H1 H2 detections. unfold detect_body.
  rewrite (fitEllipse_ok _ _ Hlen).
  destruct (Z.ltb_spec (Z.of_nat (List.length cnt)) 5); [lia |].
  cbn [bind]. rewrite Hfit, H1, H2. cbn [orb].
  destruct (flt_gt minor major); reflexivity.
Qed.

Lemma detect_loop_keeps (cv : cv2) (contours : list contour) (d : detection) :
  forall detections out,
    detect_loop cv contours detections = Ok out ->
    In d detections \/ (exists cnt, In cnt contours /\ kept cv cnt d) ->
    In d out.
Proof.
  induction contours as [| cnt rest IH]; intros detections out; simpl.
  - intros [= <-] [H | (c & [] & _)]. exact H.
  - destruct (detect_body cv cnt detections) as [mid |] eqn:Hb;
      [| discriminate].
    cbn [bind]. intros Hl Hd. apply (IH _ _ Hl).
    destruct (detect_body_shape cv cnt) as [H | [d' K]].
    + rewrite H in Hb. injection Hb as <-.
      destruct Hd as [Hd | (c & [<- | Hc] & Kc)].
      * left. exact Hd.
      * specialize (Kc detections). rewrite H in Kc.
        injection Kc as Kc. exfalso.
        apply (f_equal (@List.length _)) in Kc.
        rewrite length_app in Kc. simpl in Kc. lia.
      * right. exists c. split; assumption.
    + rewrite (K detections) in Hb. injection Hb as <-.
      destruct Hd as [Hd | (c & [<- | Hc] & Kc)].
      * left. apply in_or_app. left. exact Hd.
      * left. apply in_or_app. right.
        specialize (Kc detections). rewrite (K detections) in Kc.
        injection Kc as Kc. apply app_inv_head in Kc.
        injection Kc as ->. left. reflexivity.
      * right. exists c. split; assumption.
Qed.

(** X9. Exactly which records the detector returns: [d] is returned when,
    and only when, some contour of the image has five points or more, its
    fit has no length below 10, and [d] is the fitted center, the two
    halved lengths (the larger first when the second exceeds the first) and
    the fitted angle. *)
Theorem detections_exact
  (cv : cv2) (img : image) (out : list detection) (d : detection) :
  detect_craters cv img = Ok out ->
  (In d out
   <-> exists (cnt : contour) (cx cy major minor angle : pyfloat),
       In cnt (find_contours cv img)
       /\ 5 <= Z.of_nat (List.length cnt)
       /\ fit cv cnt = ((cx, cy), (major, minor), angle)
       /\ flt_lt major (of_int 10) = false
       /\ flt_lt minor (of_int 10) = false
       /\ d = (if flt_gt minor major
               then (cx, cy, flt_half minor, flt_half major, angle)
               else (cx, cy, flt_half major, flt_half minor, angle))).
Proof.
  intros Hrun. split.
  - intros Hin.
    destruct (detect_loop_In _ _ _ _ _ Hrun Hin) as [[] | (cnt & Hc & K)].
    destruct (kept_inv _ _ _ K)
      as (cx & cy & major & minor & angle & Hfit & Hlen & H1 & H2 & Hd).
    exists cnt, cx, cy, major, minor, angle. repeat split; assumption.
  - intros (cnt & cx & cy & major & minor & angle
            & Hc & Hlen & Hfit & H1 & H2 & ->).
    apply (detect_loop_keeps _ _ _ _ _ Hrun). right.
    exists cnt. split; [exact Hc |].
    apply kept_intro; assumption.
Qed.

Lemma detections_exact_witness :
  detect_craters (cv_stub [triangle; pentagon] rect_reversed) []
  = Ok [det_reversed]
  /\ In det_reversed [det_reversed].
Proof.
  assert (H : detect_craters (cv_stub [triangle; pentagon] rect_reversed) []
              = Ok [det_reversed]) by reflexivity.
  split; [exact H |].
  apply (detections_exact _ _ _ det_reversed H).
  exists pentagon, (dec 100 1), (dec 100 1), (dec 20 1), (dec 40 1), (dec 30 1).
  split; [right; left; reflexivity |].
  split; [simpl; lia |]. repeat split.
Defined.

(** ** The run over all images *)

Lemma process_image_run (cv : cv2) (root p : Path) (file : csv_file) :
  process_image cv root p file
  = (image_result cv root p, file ++ image_block cv root p).
Proof.
  destruct (process_image_block cv root p) as (r & block & H).
  unfold image_result, image_block. rewrite (H []), (H file). reflexivity.
Qed.

Lemma image_undecoded (cv : cv2) (root p : Path) :
  imread cv p = None ->
  image_result cv root p = Ok tt /\ image_block cv root p = [].
Proof.
  intros H. unfold image_result, image_block, process_image. rewrite H.
  split; reflexivity.
Qed.

Lemma image_without_identifier (cv : cv2) (root p : Path) (img : image)
  (e : pyexn) :
  imread cv p = Some img ->
  image_id_from_path p root = Raise e ->
  image_result cv root p = Raise e /\ image_block cv root p = [].
Proof.
  intros H Hid. unfold image_result, image_block, process_image.
  rewrite H. unfold io_bind, io_lift. rewrite Hid. split; reflexivity.
Qed.

Lemma image_written (cv : cv2) (root p : Path) (img : image)
  (image_id : string) (detections : list detection) :
  imread cv p = Some img ->
  image_id_from_path p root = Ok image_id ->
  detect_craters cv img = Ok detections ->
  image_result cv root p = Ok tt
  /\ image_block cv root p
     = match detections with
       | [] => [sentinel_row image_id]
       | _ :: _ => map (detection_row image_id) detections
       end.
Proof.
  intros H Hid Hdet. unfold image_result, image_block, process_image.
  rewrite H. unfold io_bind, io_lift. rewrite Hid, Hdet.
  destruct detections as [| d rest]; [split; reflexivity |].
  rewrite write_rows_nonempty by discriminate. split; reflexivity.
Qed.

Lemma image_ok_result (cv : cv2) (root p : Path) :
  image_ok cv root p <-> image_result cv root p = Ok tt.
Proof.
  unfold image_ok.
  destruct (imread cv p) as [img |] eqn:Hread.
  - destruct (image_id_from_path p root) as [image_id | e] eqn:Hid.
    + destruct (detect_craters_total cv img) as [detections Hdet].
      destruct (image_written _ _ _ _ _ _ Hread Hid Hdet) as [-> _].
      split; [reflexivity |]. intros _. right. exists image_id. reflexivity.
    + destruct (image_without_identifier _ _ _ _ _ Hread Hid) as [-> _].
      split; [| discriminate].
      intros [H | (image_id & H)]; discriminate.
  - destruct (image_undecoded _ root _ Hread) as [-> _].
    split; [reflexivity |]. intros _. left. reflexivity.
Qed.

Lemma image_result_raise (cv : cv2) (root p : Path) (e : pyexn) :
  image_result cv root p = Raise e ->
  image_block cv root p = []
  /\ exists img, imread cv p = Some img
                 /\ image_id_from_path p root = Raise e.
Proof.
  intros H.
  destruct (imread cv p) as [img |] eqn:Hread.
  - destruct (image_id_from_path p root) as [image_id | e'] eqn:Hid.
    + destruct (detect_craters_total cv img) as [detections Hdet].
      destruct (image_written _ _ _ _ _ _ Hread Hid Hdet) as [Hr _].
      congruence.
    + destruct (image_without_identifier _ _ _ _ _ Hread Hid) as [Hr Hb].
      split; [exact Hb |]. exists img. split; [reflexivity | congruence].
  - destruct (image_undecoded _ root _ Hread) as [Hr _]. congruence.
Qed.

(** The rows of an image's block: the sentinel row of its identifier, or
    the rows of its detections. *)
Lemma image_block_rows (cv : cv2) (root p : Path) (r : row) :
  In r (image_block cv root p) ->
  exists (img : image) (image_id : string),
    imread cv p = Some img
    /\ image_id_from_path p root = Ok image_id
    /\ ((detect_craters cv img = Ok [] /\ r = sentinel_row image_id)
        \/ exists d, emitted cv img d /\ r = detection_row image_id d).
Proof.
  intros Hin.
  destruct (imread cv p) as [img |] eqn:Hread.
  - destruct (image_id_from_path p root) as [image_id | e] eqn:Hid.
    + destruct (detect_craters_total cv img) as [detections Hdet].
      destruct (image_written _ _ _ _ _ _ Hread Hid Hdet) as [_ Hb].
      rewrite Hb in Hin. exists img, image_id.
      split; [reflexivity |]. split; [reflexivity |].
      destruct detections as [| d rest].
      * left. destruct Hin as [<- | []]. split; [exact Hdet | reflexivity].
      * right. apply in_map_iff in Hin. destruct Hin as (d' & <- & Hd).
        exists d'. split; [| reflexivity].
        exists (d :: rest). split; assumption.
    + destruct (image_without_identifier _ _ _ _ _ Hread Hid) as [_ Hb].
      rewrite Hb in Hin. destruct Hin.
  - destruct (image_undecoded _ root _ Hread) as [_ Hb].
    rewrite Hb in Hin. destruct Hin.
Qed.

Lemma process_images_ok (cv : cv2) (root : Path) (images : list Path) :
  Forall (image_ok cv root) images ->
  forall file,
    process_images cv root images file
    = (Ok tt, file ++ flat_map (image_block cv root) images).
Proof.
  induction 1 as [| p rest Hp _ IH]; intros file.
  - simpl. unfold io_ret. rewrite app_nil_r. reflexivity.
  - cbn [process_images flat_map]. unfold io_bind.
    rewrite process_image_run. apply image_ok_result in Hp. rewrite Hp.
    rewrite IH, app_assoc. reflexivity.
Qed.

Lemma process_images_stop (cv : cv2) (root : Path) (pre post : list Path)
  (p : Path) (e : pyexn) :
  Forall (image_ok cv root) pre ->
  image_result cv root p = Raise e ->
  forall file,
    process_images cv root (pre ++ p :: post) file
    = (Raise e, file ++ flat_map (image_block cv root) pre).
Proof.
  intros Hpre Hp. induction Hpre as [| q rest Hq _ IH]; intros file.
  - cbn [app process_images flat_map]. unfold io_bind.
    rewrite process_image_run, Hp.
    destruct (image_result_raise _ _ _ _ Hp) as [-> _]. reflexivity.
  - cbn [app process_images flat_map]. unfold io_bind.
    rewrite process_image_run. apply image_ok_result in Hq. rewrite Hq.
    rewrite IH, app_assoc. reflexivity.
Qed.

(** A list of images is fine throughout, or has a first image on which the
    loop body raises. *)
Lemma images_split (cv : cv2) (root : Path) (images : list Path) :
  Forall (image_ok cv root) images
  \/ exists pre p post e,
      images = pre ++ p :: post
      /\ Forall (image_ok cv root) pre
      /\ image_result cv root p = Raise e.
Proof.
  induction images as [| q rest IH]; [left; constructor |].
  destruct (image_result cv root q) as [[] | e] eqn:Hq.
  - apply image_ok_result in Hq.
    destruct IH as [IH | (pre & p & post & e & -> & Hpre & Hp)].
    + left. constructor; assumption.
    + right. exists (q :: pre), p, post, e.
      split; [reflexivity |]. split; [constructor; assumption | exact Hp].
  - right. exists [], q, rest, e. split; [reflexivity |].
    split; [constructor | exact Hq].
Qed.

(** The file is opened for writing: the run starts from the header alone,
    whatever the file held. *)
Lemma main_run (cv : cv2) (root : Path) (images : list Path) (file : csv_file) :
  main cv root images file = process_images cv root images [header].
Proof. reflexivity. Qed.

Lemma header_first (data : csv_file) : [header] ++ data = header :: data.
Proof. reflexivity. Qed.

Lemma row_shape (image_id : string) (r : row) :
  r = sentinel_row image_id \/ (exists d, r = detection_row image_id d) ->
  List.length r = 7%nat
  /\ nth_error r 5 = Some (PyStr image_id)
  /\ nth_error r 6 = Some (PyInt (-1)).
Proof.
  intros [-> | ([[[[cx cy] a] b] angle] & ->)]; repeat split.
Qed.

(** X10. The file after a run, whether it ends well or raises, and
    whatever it held before: the header, then data rows only.  Every data row was written for
    one of the images, carries that image's identifier in the sixth of its
    seven cells and -1 in the last, and is the sentinel row of an image
    without detections or the row of one of the image's detections. *)
Theorem main_output_shape
  (cv : cv2) (root : Path) (images : list Path) (file : csv_file) :
  exists (r : result unit) (data : list row),
    main cv root images file = (r, header :: data)
    /\ forall rw, In rw data ->
         exists (p : Path) (img : image) (image_id : string),
           In p images
           /\ imread cv p = Some img
           /\ image_id_from_path p root = Ok image_id
           /\ ((detect_craters cv img = Ok [] /\ rw = sentinel_row image_id)
               \/ exists d, emitted cv img d /\ rw = detection_row image_id d)
           /\ List.length rw = 7%nat
           /\ nth_error rw 5 = Some (PyStr image_id)
           /\ nth_error rw 6 = Some (PyInt (-1)).
Proof.
  assert (Hrows : forall done rw,
             incl done images ->
             In rw (flat_map (image_block cv root) done) ->
             exists (p : Path) (img : image) (image_id : string),
               In p images
               /\ imread cv p = Some img
               /\ image_id_from_path p root = Ok image_id
               /\ ((detect_craters cv img = Ok []
                    /\ rw = sentinel_row image_id)
                   \/ exists d, emitted cv img d
                                /\ rw = detection_row image_id d)
               /\ List.length rw = 7%nat
               /\ nth_error rw 5 = Some (PyStr image_id)
               /\ nth_error rw 6 = Some (PyInt (-1))).
  { intros done rw Hincl Hin. apply in_flat_map in Hin.
    destruct Hin as (p & Hp & Hin).
    destruct (image_block_rows _ _ _ _ Hin)
      as (img & image_id & Hread & Hid & Hkind).
    exists p, img, image_id.
    split; [apply Hincl; exact Hp |]. split; [exact Hread |].
    split; [exact Hid |]. split; [exact Hkind |].
    apply row_shape.
    destruct Hkind as [[_ ->] | (d & _ & ->)];
      [left; reflexivity | right; exists d; reflexivity]. }
  rewrite main_run.
  destruct (images_split cv root images)
    as [Hok | (pre & p & post & e & Himgs & Hpre & Hp)].
  - exists (Ok tt), (flat_map (image_block cv root) images).
    rewrite (process_images_ok _ _ _ Hok), header_first.
    split; [reflexivity |]. intros rw. apply Hrows. apply incl_refl.
  - exists (Raise e), (flat_map (image_block cv root) pre).
    rewrite Himgs, (process_images_stop _ _ _ _ _ _ Hpre Hp), header_first.
    split; [reflexivity |]. intros rw. rewrite <- Himgs. apply Hrows.
    rewrite Himgs. apply incl_appl. apply incl_refl.
Qed.

(** X11. A run without failure.  When every image either does not decode
    or has a derivable identifier, [main] returns normally and the file is
    the header followed by the blocks of the images, one after the other in
    the order of the list: nothing for an image that does not decode, the
    sentinel row or the detection rows for one that does. *)
Theorem main_succeeds
  (cv : cv2) (root : Path) (images : list Path) (file : csv_file) :
  (forall p, In p images -> image_ok cv root p) ->
  main cv root images file
  = (Ok tt, header :: flat_map (image_block cv root) images)
  /\ forall p, In p images ->
       (imread cv p = None -> image_block cv root p = [])
       /\ (forall img image_id detections,
             imread cv p = Some img ->
             image_id_from_path p root = Ok image_id ->
             detect_craters cv img = Ok detections ->
             image_block cv root p
             = match detections with
               | [] => [sentinel_row image_id]
               | _ :: _ => map (detection_row image_id) detections
               end).
Proof.
  intros Hok. split.
  - rewrite main_run, process_images_ok, header_first;
      [reflexivity | apply Forall_forall; exact Hok].
  - intros p _. split.
    + intros H. apply (image_undecoded _ root _ H).
    + intros img image_id detections H Hid Hdet.
      apply (image_written _ _ _ _ _ _ H Hid Hdet).
Qed.

Lemma main_succeeds_witness :
  (forall p,
      In p [path_two_levels; path_one_level] ->
      image_ok (cv_stub [pentagon] rect_center) root_dir p)
  /\ main (cv_stub [pentagon] rect_center) root_dir
       [path_two_levels; path_one_level] [[PyStr "left over"]]
     = (Ok tt,
        [header;
         detection_row "altitude01/longitude05/orientation01_light01"
           det_center;
         detection_row "altitude01/img.png/img" det_center]).
Proof.
  assert (H : forall p,
             In p [path_two_levels; path_one_level] ->
             image_ok (cv_stub [pentagon] rect_center) root_dir p).
  { intros p [<- | [<- | []]]; right; eexists; reflexivity. }
  split; [exact H |].
  exact (proj1 (main_succeeds _ _ _ [[PyStr "left over"]] H)).
Defined.

(** X12. A run that fails.  The first image that decodes but has no
    identifier stops the run with the exception of the derivation: the file
    keeps the header and the blocks of the images before it, and no later
    image is looked at. *)
Theorem main_stops_at_first_failure
  (cv : cv2) (root : Path) (pre post : list Path) (p : Path) (img : image)
  (e : pyexn) (file : csv_file) :
  (forall q, In q pre -> image_ok cv root q) ->
  imread cv p = Some img ->
  image_id_from_path p root = Raise e ->
  main cv root (pre ++ p :: post) file
  = (Raise e, header :: flat_map (image_block cv root) pre).
Proof.
  intros Hpre Hread Hid.
  destruct (image_without_identifier _ _ _ _ _ Hread Hid) as [Hr _].
  rewrite main_run, (process_images_stop _ _ _ _ _ _ (proj2 (Forall_forall _ _) Hpre) Hr).
  rewrite header_first. reflexivity.
Qed.

Lemma main_stops_at_first_failure_witness :
  main (cv_stub [triangle] rect_center) root_dir
    ([path_two_levels] ++ path_no_level :: [path_two_levels])
    [[PyStr "left over"]]
  = (Raise IndexError,
     [header; sentinel_row "altitude01/longitude05/orientation01_light01"]).
Proof.
  apply (main_stops_at_first_failure
           (cv_stub [triangle] rect_center) root_dir
           [path_two_levels] [path_two_levels] path_no_level [] IndexError
           [[PyStr "left over"]]).
  - intros q [<- | []]. right. eexists. reflexivity.
  - reflexivity.
  - reflexivity.
Defined.

(** X13. A run over the images collected from a directory tree.  Of the
    three exceptions the script's own steps can raise ([ValueError] from
    [relative_to], [IndexError] from the indexing, [cv2.error] from the
    fit), only [IndexError] can end the run; and the run ends normally
    exactly when no file with an image extension that lies directly in the
    root decodes.  (Failures of opening or writing the output file are not
    part of the model.) *)
Theorem dataset_run_outcome
  (cv : cv2) (root : Path) (entries : list entry) (file : csv_file) :
  let r := fst (main cv root (collect_images root entries) file) in
  (r = Ok tt \/ r = Raise IndexError)
  /\ (r = Ok tt
      <-> forall f, In (File f) entries -> has_image_extension f = true ->
                    imread cv (root ++ [f]) = None).
Proof.
  cbv zeta. rewrite main_run.
  destruct (images_split cv root (collect_images root entries))
    as [Hok | (pre & p & post & e & Himgs & Hpre & Hp)].
  - rewrite (process_images_ok _ _ _ Hok). cbn [fst].
    split; [left; reflexivity |]. split; [| reflexivity].
    intros _ f Hf Hext.
    assert (Hin : In (root ++ [f]) (collect_images root entries)).
    { apply collect_images_In. exists [], f.
      split; [reflexivity |]. split; [apply file_here; exact Hf | exact Hext]. }
    pose proof (proj1 (Forall_forall _ _) Hok _ Hin) as [Hnone | (id & Hid)];
      [exact Hnone |].
    rewrite (image_id_of_rel _ _ [f] (relative_to_under root [f])) in Hid.
    discriminate.
  - rewrite Himgs, (process_images_stop _ _ _ _ _ _ Hpre Hp). cbn [fst].
    destruct (image_result_raise _ _ _ _ Hp) as (_ & img & Hread & Hid).
    assert (Hin : In p (collect_images root entries))
      by (rewrite Himgs; apply in_or_app; right; left; reflexivity).
    destruct (collected_identifier_cases _ _ _ Hin)
      as [(f & Hf & Hext & -> & Hid') | (d & dirs & f & _ & _ & _ & Hid')];
      [| congruence].
    assert (e = IndexError) as -> by congruence.
    split; [right; reflexivity |]. split; [discriminate |].
    intros Hall. rewrite (Hall f Hf Hext) in Hread. discriminate.
Qed.

(** ** Rounding keeps the order *)

Lemma round2_mono (q1 q2 : Q) : (q1 <= q2)%Q -> (round2 q1 <= round2 q2)%Q.
Proof.
  intros H. unfold round2, Qle. cbn [Qnum Qden].
  assert (H100 : (q1 * 100 <= q2 * 100)%Q)
    by (apply Qmult_le_compat_r; [exact H | discriminate]).
  apply round_half_even_mono in H100. lia.
Qed.

Lemma py_round2_mono (x y : pyfloat) :
  flt_le x y = true -> flt_le (py_round2 x) (py_round2 y) = true.
Proof.
  destruct x as [a | | |], y as [b | | |]; cbn [py_round2 flt_le]; intros H;
    try reflexivity; try discriminate.
  apply Qleb_le. apply b64_mono. apply round2_mono. apply Qleb_le. exact H.
Qed.

Lemma py_round2_ge_5 (x : pyfloat) :
  flt_le (of_int 5) x = true -> flt_le (of_int 5) (py_round2 x) = true.
Proof.
  destruct x as [q | | |]; cbn [py_round2 flt_le of_int]; intros H;
    try reflexivity; try discriminate.
  apply Qleb_le in H. apply round2_ge_5 in H.
  apply Qleb_le. apply b64_ge_5.
  unfold round2, Qle. cbn [Qnum Qden inject_Z]. lia.
Qed.

(** X14. The axes as written.  In the row of a returned record whose
    semi-axes are not NaN, the semi-major cell is at least the semi-minor
    cell, and the semi-minor cell is at least 5: rounding to two decimals
    keeps the order the detector established. *)
Theorem written_axes_ordered
  (cv : cv2) (img : image) (d : detection) (image_id : string) :
  emitted cv img d ->
  is_nan (semi_major d) = false ->
  is_nan (semi_minor d) = false ->
  exists (c1 c2 c5 : cell) (a b : pyfloat),
    detection_row image_id d
    = [c1; c2; PyFloat a; PyFloat b; c5; PyStr image_id; PyInt (-1)]
    /\ a = py_round2 (semi_major d)
    /\ b = py_round2 (semi_minor d)
    /\ flt_ge a b = true
    /\ flt_ge b (of_int 5) = true.
Proof.
  intros E Na Nb.
  destruct (emitted_kept _ _ _ E) as (cnt & _ & K).
  pose proof (kept_not_lt _ _ _ K) as Hord.
  pose proof (kept_not_below_5 _ _ _ K) as [_ H5].
  destruct d as [[[[cx cy] a] b] angle]. cbn [semi_major semi_minor] in *.
  exists (PyFloat (py_round2 cx)), (PyFloat (py_round2 cy)),
    (PyFloat (py_round2 angle)), (py_round2 a), (py_round2 b).
  split; [reflexivity |]. split; [reflexivity |]. split; [reflexivity |].
  split.
  - apply py_round2_mono. apply (not_lt_ge a b Na Nb Hord).
  - apply py_round2_ge_5. apply (not_lt_ge b (of_int 5) Nb eq_refl H5).
Qed.

Lemma written_axes_ordered_witness :
  emitted (cv_stub [pentagon] rect_reversed) [] det_reversed
  /\ map cell_text (detection_row "a/b/x" det_reversed)
     = ["100.0"; "100.0"; "20.0"; "10.0"; "30.0"; "a/b/x"; "-1"]%string
  /\ flt_ge (py_round2 (semi_major det_reversed))
       (py_round2 (semi_minor det_reversed)) = true
  /\ flt_ge (py_round2 (semi_minor det_reversed)) (of_int 5) = true.
Proof.
  assert (E : emitted (cv_stub [pentagon] rect_reversed) [] det_reversed)
    by (apply emitted_stub; reflexivity).
  split; [exact E |].
  destruct (written_axes_ordered _ _ _ "a/b/x" E eq_refl eq_refl)
    as (c1 & c2 & c5 & a & b & Hrow & -> & -> & Hab & Hb5).
  split; [vm_compute; reflexivity |]. split; [exact Hab | exact Hb5].
Defined.

(** ** Every processed image shows in the file *)

Lemma image_block_reports (cv : cv2) (root p : Path) (img : image)
  (image_id : string) :
  imread cv p = Some img ->
  image_id_from_path p root = Ok image_id ->
  exists rw, In rw (image_block cv root p) /\ row_image rw = Some image_id.
Proof.
  intros Hread Hid.
  destruct (detect_craters_total cv img) as [detections Hdet].
  destruct (image_written _ _ _ _ _ _ Hread Hid Hdet) as [_ ->].
  destruct detections as [| d rest].
  - exists (sentinel_row image_id). split; [left |]; reflexivity.
  - exists (detection_row image_id d).
    split; [left; reflexivity | apply detection_row_image].
Qed.

(** X15. In a run without failure every image that decodes has at least
    one row in the file carrying its identifier: an image without
    detections is not left out. *)
Theorem every_image_reported
  (cv : cv2) (root : Path) (images : list Path) (file : csv_file)
  (p : Path) (img : image) :
  (forall q, In q images -> image_ok cv root q) ->
  In p images ->
  imread cv p = Some img ->
  exists (image_id : string) (rw : row),
    image_id_from_path p root = Ok image_id
    /\ fst (main cv root images file) = Ok tt
    /\ In rw (snd (main cv root images file))
    /\ row_image rw = Some image_id.
Proof.
  intros Hok Hp Hread.
  destruct (Hok p Hp) as [Hnone | (image_id & Hid)]; [congruence |].
  destruct (image_block_reports _ _ _ _ _ Hread Hid) as (rw & Hrw & Himg).
  exists image_id, rw. split; [exact Hid |].
  rewrite main_run, process_images_ok by (apply Forall_forall; exact Hok).
  cbn [fst snd]. split; [reflexivity |]. split; [| exact Himg].
  apply in_or_app. right. apply in_flat_map. exists p. split; assumption.
Qed.

Lemma every_image_reported_witness :
  In path_two_levels [path_one_level; path_two_levels]
  /\ exists (image_id : string) (rw : row),
      image_id_from_path path_two_levels root_dir = Ok image_id
      /\ fst (main (cv_stub [triangle] rect_center) root_dir
                [path_one_level; path_two_levels] []) = Ok tt
      /\ In rw (snd (main (cv_stub [triangle] rect_center) root_dir
                       [path_one_level; path_two_levels] []))
      /\ row_image rw = Some image_id.
Proof.
  assert (Hin : In path_two_levels [path_one_level; path_two_levels])
    by (right; left; reflexivity).
  split; [exact Hin |].
  apply (every_image_reported (cv_stub [triangle] rect_center) root_dir
           [path_one_level; path_two_levels] [] path_two_levels []).
  - intros q [<- | [<- | []]]; right; eexists; reflexivity.
  - exact Hin.
  - reflexivity.
Defined.

(** ** Edge cases of the stem *)

Local Open Scope string_scope.

Lemma substring_is_prefix (s : string) :
  forall n, exists rest, s = substring 0 n s ++ rest.
Proof.
  induction s as [| a s IH]; intros n.
  - exists "". destruct n; reflexivity.
  - destruct n as [| n].
    + exists (String a s). reflexivity.
    + destruct (IH n) as (rest & H). exists rest.
      cbn [substring append]. rewrite <- H. reflexivity.
Qed.

(** X16. Names the stem leaves alone, and what it always is.  A name
    without a dot, a name whose only dot is the leading one, and a name
    that ends with a dot are their own stems; in every case the stem is a
    prefix of the name. *)
Theorem stem_edges :
  (forall nm, contains "." nm = false -> stem_of_name nm = nm)
  /\ (forall r, contains "." r = false ->
                stem_of_name ("." ++ r) = "." ++ r)
  /\ (forall base, stem_of_name (base ++ ".") = base ++ ".")
  /\ (forall nm, exists rest, nm = stem_of_name nm ++ rest).
Proof.
  split; [| split; [| split]].
  - intros nm H. unfold stem_of_name, rfind.
    rewrite (rfind_from_absent _ _ H). reflexivity.
  - intros r H. unfold stem_of_name. cbn [append].
    rewrite (rfind_leading_dot _ H). reflexivity.
  - intros base. unfold stem_of_name.
    change (base ++ ".") with (base ++ "." ++ "").
    rewrite (rfind_dot base "" eq_refl), len_app.
    change (len ("." ++ "")) with 1.
    destruct (Z.ltb_spec (len base) (len base + 1 - 1)); [lia |].
    rewrite andb_false_r. reflexivity.
  - intros nm. unfold stem_of_name.
    destruct (_ && _); [apply substring_is_prefix |].
    exists "". clear. induction nm as [| a nm IH]; [reflexivity |].
    cbn [append]. rewrite <- IH. reflexivity.
Qed.
